(** * Ranking and interaction core of the voting service

    A shallow embedding of the recommendation code of the repository:
    the engagement score, the personalized feed, the trending job and the
    vote / like / share / view handlers, in the two variants the repository
    ships:

    - [Server]   : src/server.js, the minimal service (vote and like only);
    - [Tracking] : the first service of src/unnamed/part_000, which also
                   records interactions and interests on the acting user.

    Modelling conventions.
    - A JavaScript [Number] that holds a count or a millisecond timestamp is
      an integer of [Z]; a [Number] that holds a score is a real of [R]
      (rounding of IEEE doubles is not modelled, [Math.exp] is [exp]).
    - [Date.now()] is an explicit argument [now], in milliseconds.
    - The document store is a pair of lists (posts, users) in store order;
      [findById] / [findOne] return the first match and [save] writes the
      document back in place.
    - A handler is a function from the store to a response and a new store;
      an exception caught by the handler's [try] / [catch] is the response
      with status 500 and the store as it was persisted so far. *)

From Stdlib Require Import Reals Lra Lia ZArith List String Bool Arith.
From Stdlib Require Import Sorted Permutation.
Import ListNotations.

Open Scope string_scope.
Open Scope Z_scope.

(** ** Data model (the two mongoose schemas) *)

Definition ObjectId := nat.
Bind Scope nat_scope with ObjectId.

Inductive InteractionType := View | Vote | Like | Share.

Record Interaction := mkInteraction {
  postId : ObjectId;
  type : InteractionType;
  timestamp : Z
}.

Record User := mkUser {
  userId : string;
  username : string;
  interactions : list Interaction;
  interests : list string
}.

Record PollOption := mkOption {
  text : string;
  votes : Z;
  voters : list string
}.

Record Post := mkPost {
  _id : ObjectId;
  creatorId : string;
  creatorName : string;
  title : string;
  options : list PollOption;
  totalVotes : Z;
  likes : list string;
  likesCount : Z;
  shares : Z;
  views : Z;
  tags : list string;
  createdAt : Z;
  engagementScore : R;
  trendingScore : R
}.

(** ** Engagement score *)

(** [calculateEngagementScore], the same function in every variant:
<<
  const ageInHours = (Date.now() - post.createdAt) / (1000 * 60 * 60);
  const decayFactor = Math.exp(-ageInHours / 48);
  const rawScore = post.totalVotes * 1 + post.likesCount * 0.5
                 + post.shares * 2 + post.views * 0.1;
  return rawScore * decayFactor;
>> *)
Definition ageInHours (now : Z) (post : Post) : R :=
  ((IZR now - IZR (createdAt post)) / (1000 * 60 * 60))%R.

Definition decayFactor (now : Z) (post : Post) : R :=
  exp (- ageInHours now post / 48)%R.

Definition rawScore (post : Post) : R :=
  (IZR (totalVotes post) * 1 +
   IZR (likesCount post) * 0.5 +
   IZR (shares post) * 2 +
   IZR (views post) * 0.1)%R.

Definition calculateEngagementScore (now : Z) (post : Post) : R :=
  (rawScore post * decayFactor now post)%R.

(** A post that carries only what the score reads. *)
Definition counters_post (created tv lc sh vw : Z) : Post :=
  mkPost 0%nat EmptyString EmptyString EmptyString [] tv [] lc sh vw []
         created 0%R 0%R.

(** ** The document store *)

Record Db := mkDb {
  posts : list Post;
  users : list User
}.

(** [Post.findById(id)]: the first document with that [_id], or [null]. *)
Fixpoint findById (id : ObjectId) (ps : list Post) : option Post :=
  match ps with
  | [] => None
  | p :: rest => if Nat.eqb (_id p) id then Some p else findById id rest
  end.

(** [post.save()]: writes the document back over the stored one. *)
Fixpoint savePost (p : Post) (ps : list Post) : list Post :=
  match ps with
  | [] => []
  | q :: rest =>
      if Nat.eqb (_id q) (_id p) then p :: rest else q :: savePost p rest
  end.

(** [User.findOne({ userId })]. *)
Fixpoint findOne (uid : string) (us : list User) : option User :=
  match us with
  | [] => None
  | u :: rest => if String.eqb (userId u) uid then Some u else findOne uid rest
  end.

(** [user.save()]. *)
Fixpoint saveUser (u : User) (us : list User) : list User :=
  match us with
  | [] => []
  | v :: rest =>
      if String.eqb (userId v) (userId u) then u :: rest
      else v :: saveUser u rest
  end.

(** ** Array helpers *)

(** [arr.includes(x)] on an array of strings. *)
Definition includes (x : string) (arr : list string) : bool :=
  existsb (String.eqb x) arr.

(** [arr.push(x)]. *)
Definition push {A : Type} (arr : list A) (x : A) : list A := arr ++ [x].

(** [arr.splice(arr.indexOf(x), 1)] when [x] occurs: drops its first
    occurrence. *)
Fixpoint spliceFirst (x : string) (arr : list string) : list string :=
  match arr with
  | [] => []
  | y :: rest => if String.eqb y x then rest else y :: spliceFirst x rest
  end.

(** [arr.filter(id => id !== x)]. *)
Definition filterOut (x : string) (arr : list string) : list string :=
  filter (fun id => negb (String.eqb id x)) arr.

(** [arr[i]] for a request-supplied index: [undefined] outside the array. *)
Definition at_index {A : Type} (arr : list A) (i : Z) : option A :=
  if i <? 0 then None else nth_error arr (Z.to_nat i).

(** In-place update of [arr[i]]. *)
Fixpoint updateNth {A : Type} (n : nat) (f : A -> A) (arr : list A) : list A :=
  match arr, n with
  | [], _ => []
  | x :: rest, O => f x :: rest
  | x :: rest, S m => x :: updateNth m f rest
  end.

(** ** Responses *)

Inductive Response (A : Type) : Type :=
| ok (message : string) (body : A)
| error (status : Z) (msg : string).
Arguments ok {A} message body.
Arguments error {A} status msg.

(** [parseInt(req.query.x) || d]: an absent, malformed or zero parameter
    gives the default. [Some n] is a parameter that parses to the natural
    number [n]; negative parameters are not modelled. *)
Definition queryOr (q : option nat) (d : nat) : nat :=
  match q with
  | Some (S n) => S n
  | _ => d
  end.

(** ** Sorting and windows of the store *)

Section Sorting.
Context {A : Type}.
(** [precedes a b]: the sort specification puts [a] strictly before [b]. *)
Variable precedes : A -> A -> bool.

Fixpoint insertSorted (x : A) (l : list A) : list A :=
  match l with
  | [] => [x]
  | y :: rest =>
      if precedes y x then y :: insertSorted x rest else x :: y :: rest
  end.

(** The store's sort, taken stable with respect to store order. *)
Fixpoint sortBy (l : list A) : list A :=
  match l with
  | [] => []
  | x :: rest => insertSorted x (sortBy rest)
  end.
End Sorting.

(** Descending on a real key, then descending on an integer key: the sort
    specifications [{ trendingScore: -1, createdAt: -1 }] and
    [{ relevanceScore: -1, createdAt: -1 }]. *)
Definition descending2 (k1 k1' : R) (k2 k2' : Z) : bool :=
  if Rlt_dec k1' k1 then true
  else if Rlt_dec k1 k1' then false
  else k2' <? k2.

(** The slice [[skip, skip + limit)] of a list. *)
Definition window {A : Type} (limit skip : nat) (l : list A) : list A :=
  firstn limit (skipn skip l).

(** [.limit(limit).skip(skip)] on a query: the skip comes first whatever
    the order of the calls, and a limit of 0 is no limit. *)
Definition cursorWindow {A : Type} (limit skip : nat) (l : list A)
    : list A :=
  match limit with
  | O => skipn skip l
  | S _ => window limit skip l
  end.

(** The documents of a page; none when the request was rejected. *)
Definition pageOf {A : Type} (r : option (list A)) : list A :=
  match r with
  | Some page => page
  | None => []
  end.

(** Two pages one after the other, when both requests were served. *)
Definition joinPages {A : Type} (a b : option (list A)) : option (list A) :=
  match a, b with
  | Some x, Some y => Some (x ++ y)%list
  | _, _ => None
  end.

Definition byTrending (p q : Post) : bool :=
  descending2 (trendingScore p) (trendingScore q) (createdAt p) (createdAt q).

(** [Post.find().sort({ trendingScore: -1, createdAt: -1 })]. *)
Definition trendingOrder (ps : list Post) : list Post :=
  sortBy byTrending ps.

(** ** The feed pipeline *)

(** A document that leaves the feed: a post, with the field [$addFields]
    adds when it went through the aggregation. *)
Record FeedDoc := mkFeedDoc {
  doc : Post;
  relevanceScore : option R
}.

Definition plain (p : Post) : FeedDoc := mkFeedDoc p None.

Definition relevanceOf (d : FeedDoc) : R :=
  match relevanceScore d with
  | Some r => r
  | None => 0%R
  end.

(** [{ $setIntersection: ['$tags', interests] }]: a set, no duplicates. *)
Definition setIntersection (a b : list string) : list string :=
  nodup string_dec (filter (fun x => includes x b) a).

(** [{ $match: { _id: { $nin: interacted } } }]. *)
Definition notIn (interacted : list ObjectId) (p : Post) : bool :=
  negb (existsb (Nat.eqb (_id p)) interacted).

Definition byRelevance (a b : FeedDoc) : bool :=
  descending2 (relevanceOf a) (relevanceOf b)
              (createdAt (doc a)) (createdAt (doc b)).

(** A post with a relevanceScore. *)
Definition scored (score : Post -> R) (p : Post) : FeedDoc :=
  mkFeedDoc p (Some (score p)).

(** The values the expressions of the pipeline work on: a number, or a date
    as its milliseconds. *)
Inductive Value :=
| VNumber (x : R)
| VDate (ms : R).

(** [$subtract]: a number from a number, a date from a date (the
    milliseconds between them), a number of milliseconds from a date; the
    store refuses to subtract a date from a number. *)
Definition subtract (a b : Value) : option Value :=
  match a, b with
  | VNumber x, VNumber y => Some (VNumber (x - y))
  | VDate x, VDate y => Some (VNumber (x - y))
  | VDate x, VNumber y => Some (VDate (x - y))
  | VNumber _, VDate _ => None
  end.

(** [$divide]: numbers only, and not by zero. *)
Definition divide (a b : Value) : option Value :=
  match a, b with
  | VNumber x, VNumber y =>
      if Req_dec_T y 0 then None else Some (VNumber (x / y))
  | _, _ => None
  end.

(** [{ $addFields: { relevanceScore: ... } }]: the expression is evaluated
    on every document that reaches the stage, and an expression that fails
    on one of them fails the aggregation. *)
Fixpoint addFields (score : Post -> option R) (ps : list Post)
    : option (list FeedDoc) :=
  match ps with
  | [] => Some []
  | p :: rest =>
      match score p, addFields score rest with
      | Some r, Some ds => Some (mkFeedDoc p (Some r) :: ds)
      | _, _ => None
      end
  end.

(** The aggregation shared by the variants, [None] when the store rejects
    it; [score] is the expression of [$addFields]. The store refuses a
    [$limit] that is not positive before it reads a document. *)
Definition aggregate (score : Post -> option R) (interacted : list ObjectId)
    (limit skip : nat) (ps : list Post) : option (list FeedDoc) :=
  match limit with
  | O => None
  | S _ =>
      match addFields score (filter (notIn interacted) ps) with
      | Some ds => Some (window limit skip (sortBy byRelevance ds))
      | None => None
      end
  end.

(** [{ $multiply: [{ $size: { $setIntersection: [...] } }, 10] }]. *)
Definition tagScore (userInterests : list string) (p : Post) : R :=
  (INR (List.length (setIntersection (tags p) userInterests)) * 10)%R.

(** ** Trending job *)

(** The update document [{ engagementScore: score, trendingScore: score }]
    applied to a post. *)
Definition setScores (q : Post) (score : R) : Post :=
  mkPost (_id q) (creatorId q) (creatorName q) (title q) (options q)
         (totalVotes q) (likes q) (likesCount q) (shares q) (views q)
         (tags q) (createdAt q) score score.


(** A post as one pass of the job leaves it. *)
Definition rescored (now : Z) (p : Post) : Post :=
  setScores p (calculateEngagementScore now p).




(** ** Mutations of a post shared by the handlers *)

Definition hasVoted (post : Post) (uid : string) : bool :=
  existsb (fun opt => includes uid (voters opt)) (options post).

Definition addVoter (uid : string) (opt : PollOption) : PollOption :=
  mkOption (text opt) (votes opt + 1) (push (voters opt) uid).

(** [options[i].votes += 1; options[i].voters.push(uid); totalVotes += 1]. *)
Definition addVote (post : Post) (i : nat) (uid : string) : Post :=
  mkPost (_id post) (creatorId post) (creatorName post) (title post)
         (updateNth i (addVoter uid) (options post))
         (totalVotes post + 1) (likes post) (likesCount post)
         (shares post) (views post) (tags post) (createdAt post)
         (engagementScore post) (trendingScore post).

Definition setLikes (post : Post) (ls : list string) (n : Z) : Post :=
  mkPost (_id post) (creatorId post) (creatorName post) (title post)
         (options post) (totalVotes post) ls n
         (shares post) (views post) (tags post) (createdAt post)
         (engagementScore post) (trendingScore post).

Definition addShare (post : Post) : Post :=
  mkPost (_id post) (creatorId post) (creatorName post) (title post)
         (options post) (totalVotes post) (likes post) (likesCount post)
         (shares post + 1) (views post) (tags post) (createdAt post)
         (engagementScore post) (trendingScore post).

Definition addView (post : Post) : Post :=
  mkPost (_id post) (creatorId post) (creatorName post) (title post)
         (options post) (totalVotes post) (likes post) (likesCount post)
         (shares post) (views post + 1) (tags post) (createdAt post)
         (engagementScore post) (trendingScore post).

(** [new Post({ creatorId, creatorName, title, image,
    options: options.map(o => ({ text: o })), tags })] with the schema
    defaults. *)
Definition newPost (id : ObjectId) (creator name ttl : string)
    (opts tgs : list string) (now : Z) : Post :=
  mkPost id creator name ttl (map (fun o => mkOption o 0 []) opts)
         0 [] 0 0 0 tgs now 0%R 0%R.

(** ** Creating, listing and deleting documents *)

(** The [required] paths of the post schema. A required [String] does not
    validate when it is empty. *)
Definition validates (p : Post) : bool :=
  negb (String.eqb (creatorId p) EmptyString) &&
  negb (String.eqb (creatorName p) EmptyString) &&
  negb (String.eqb (title p) EmptyString) &&
  forallb (fun o => negb (String.eqb (text o) EmptyString)) (options p).

(** [post.save()] of a new document: validation, then the insert at the end
    of the collection, which the unique [_id] index refuses for an
    identifier in use. *)
Definition insertPost (p : Post) (ps : list Post) : option (list Post) :=
  if validates p then
    match findById (_id p) ps with
    | None => Some (push ps p)
    | Some _ => None
    end
  else None.

(** [Post.findByIdAndDelete(id)]. *)
Fixpoint findByIdAndDelete (id : ObjectId) (ps : list Post) : list Post :=
  match ps with
  | [] => []
  | q :: rest =>
      if Nat.eqb (_id q) id then rest else q :: findByIdAndDelete id rest
  end.

(** The sort specification [{ createdAt: -1 }]. *)
Definition byCreated (p q : Post) : bool := createdAt q <? createdAt p.

(** [Post.find(...).sort({ createdAt: -1 })]. *)
Definition newestFirst (ps : list Post) : list Post := sortBy byCreated ps.

(** [tags || []] and the like. *)
Definition orEmpty {A : Type} (l : option (list A)) : list A :=
  match l with
  | Some x => x
  | None => []
  end.

(** [req.query] of the list endpoints. *)
Record Query := mkQuery {
  limit : option nat;
  skip : option nat
}.

(** ** src/server.js *)

Module Server.

(** [getPersonalizedFeed(userId, limit = 20, skip = 0)]; [None] when the
    promise is rejected. *)
Definition getPersonalizedFeed (uid : string) (limit skip : nat) (db : Db)
    : option (list FeedDoc) :=
  match findOne uid (users db) with
  | None =>
      Some (map plain (cursorWindow limit skip (trendingOrder (posts db))))
  | Some user =>
      let interacted := map postId (interactions user) in
      let interests := interests user in
      aggregate (fun p => Some (tagScore interests p + trendingScore p)%R)
                interacted limit skip (posts db)
  end.

(** [POST /api/posts/:id/vote]. *)
Definition vote (id : ObjectId) (optionIndex : Z) (uid : string) (db : Db)
    : Response Post * Db :=
  match findById id (posts db) with
  | None => (error 404 "Post not found", db)
  | Some post =>
      if hasVoted post uid then (error 400 "Already voted", db)
      else
        match at_index (options post) optionIndex with
        | None => (error 500 "TypeError", db)
        | Some _ =>
            let post' := addVote post (Z.to_nat optionIndex) uid in
            (ok EmptyString post', mkDb (savePost post' (posts db)) (users db))
        end
  end.

(** [POST /api/posts/:id/like]: [indexOf] / [splice]. There is no check
    of the post: on [null] the read of [post.likes] throws and is caught. *)
Definition like (id : ObjectId) (uid : string) (db : Db)
    : Response Post * Db :=
  match findById id (posts db) with
  | None => (error 500 "TypeError", db)
  | Some post =>
      let post' :=
        if includes uid (likes post)
        then setLikes post (spliceFirst uid (likes post)) (likesCount post - 1)
        else setLikes post (push (likes post) uid) (likesCount post + 1) in
      (ok EmptyString post', mkDb (savePost post' (posts db)) (users db))
  end.

(** [POST /api/users]. *)
Definition createUser (uid name : string) (db : Db) : Response User * Db :=
  if (String.eqb uid EmptyString || String.eqb name EmptyString)%bool
  then (error 400 "userId & username required", db)
  else
    match findOne uid (users db) with
    | Some user => (ok EmptyString user, db)
    | None =>
        let user := mkUser uid name [] [] in
        (ok EmptyString user, mkDb (posts db) (push (users db) user))
    end.

(** [POST /api/posts], answered with status 201. Nothing is checked before
    [options.map], which throws on a missing [options]; [newId] is the
    identifier [new Post] draws. *)
Definition createPost (now : Z) (newId : ObjectId)
    (creator name ttl : string) (opts tgs : option (list string)) (db : Db)
    : Response Post * Db :=
  match opts with
  | None => (error 500 "TypeError", db)
  | Some os =>
      let post := newPost newId creator name ttl os (orEmpty tgs) now in
      match insertPost post (posts db) with
      | Some ps => (ok EmptyString post, mkDb ps (users db))
      | None => (error 500 "save failed", db)
      end
  end.

(** [GET /api/posts]. *)
Definition listPosts (q : Query) (db : Db) : list Post :=
  window (queryOr (limit q) 20) (queryOr (skip q) 0) (newestFirst (posts db)).

End Server.

(** ** src/unnamed/part_000, first service *)

Module Tracking.

(** The third summand of [$add] in [getPersonalizedFeed]:
    [{ $divide: [{ $subtract: [Date.now(), '$createdAt'] }, 1000000000] }].
    [Date.now()] reaches the store as a number, [createdAt] is stored as a
    date. *)
Definition recency (now : Z) (p : Post) : option R :=
  match subtract (VNumber (IZR now)) (VDate (IZR (createdAt p))) with
  | Some difference =>
      match divide difference (VNumber 1000000000) with
      | Some (VNumber r) => Some r
      | _ => None
      end
  | None => None
  end.

(** The expression of [relevanceScore]: [$add] of the tag term, the
    trending score and the recency term. *)
Definition relevance (now : Z) (userInterests : list string) (p : Post)
    : option R :=
  match recency now p with
  | Some r => Some (tagScore userInterests p + trendingScore p + r)%R
  | None => None
  end.

(** [getPersonalizedFeed(userId, limit = 20, skip = 0)]; [None] when the
    promise is rejected. *)
Definition getPersonalizedFeed (now : Z) (uid : string) (limit skip : nat)
    (db : Db) : option (list FeedDoc) :=
  match findOne uid (users db) with
  | None =>
      Some (map plain (cursorWindow limit skip (trendingOrder (posts db))))
  | Some user =>
      let userInterests := interests user in
      let interactedPostIds := map postId (interactions user) in
      aggregate (relevance now userInterests) interactedPostIds limit skip
                (posts db)
  end.

(** [GET /api/posts/feed/:userId]; a rejected promise is caught and
    answered with status 500. *)
Definition feed (now : Z) (uid : string) (q : Query) (db : Db)
    : Response (list FeedDoc) :=
  match getPersonalizedFeed now uid (queryOr (limit q) 20)
                            (queryOr (skip q) 0) db with
  | Some page => ok EmptyString page
  | None => error 500 "aggregate failed"
  end.

(** [GET /api/posts/trending]: reads [req.query.limit] only. *)
Definition trending (q : Query) (db : Db) : Response (list Post) :=
  ok EmptyString (firstn (queryOr (limit q) 20) (trendingOrder (posts db))).

(** [user.interactions.push({ postId, type })]; the schema default fills
    [timestamp] with [Date.now()]. *)
Definition pushInteraction (now : Z) (pid : ObjectId)
    (kind : InteractionType) (user : User) : User :=
  mkUser (userId user) (username user)
         (push (interactions user) (mkInteraction pid kind now))
         (interests user).

(** [tags.forEach(tag => { if (!interests.includes(tag))
    interests.push(tag) })]. *)
Definition addInterests (tgs : list string) (user : User) : User :=
  mkUser (userId user) (username user) (interactions user)
         (fold_left (fun acc tag => if includes tag acc then acc
                                    else push acc tag)
                    tgs (interests user)).

(** The block [const user = await User.findOne({ userId });
    if (user) { ...; await user.save(); }]. *)
Definition withUser (uid : string) (f : User -> User) (us : list User)
    : list User :=
  match findOne uid us with
  | Some user => saveUser (f user) us
  | None => us
  end.

(** [if (userId) { ... }] around the block, for the view and the share. *)
Definition withOptionalUser (uid : string) (f : User -> User)
    (us : list User) : list User :=
  if String.eqb uid EmptyString then us else withUser uid f us.

(** [POST /api/users]. *)
Definition createUser (uid name : string) (db : Db) : Response User * Db :=
  if (String.eqb uid EmptyString || String.eqb name EmptyString)%bool
  then (error 400 "userId and username required", db)
  else
    match findOne uid (users db) with
    | Some user => (ok "User ready" user, db)
    | None =>
        let user := mkUser uid name [] [] in
        (ok "User ready" user, mkDb (posts db) (push (users db) user))
    end.

(** [GET /api/posts/:id], the view. *)
Definition getPost (now : Z) (id : ObjectId) (uid : string) (db : Db)
    : Response Post * Db :=
  match findById id (posts db) with
  | None => (error 404 "Post not found", db)
  | Some post =>
      let post' := addView post in
      (ok EmptyString post',
       mkDb (savePost post' (posts db))
            (withOptionalUser uid (pushInteraction now (_id post') View)
                              (users db)))
  end.

(** [POST /api/posts/:id/vote]. *)
Definition vote (now : Z) (id : ObjectId) (optionIndex : Z) (uid : string)
    (db : Db) : Response Post * Db :=
  if String.eqb uid EmptyString then (error 400 "userId required", db)
  else
    match findById id (posts db) with
    | None => (error 404 "Post not found", db)
    | Some post =>
        if hasVoted post uid then (error 400 "Already voted", db)
        else
          match at_index (options post) optionIndex with
          | None => (* [options[optionIndex]] is undefined: caught *)
              (error 500 "TypeError", db)
          | Some _ =>
              let post' := addVote post (Z.to_nat optionIndex) uid in
              (ok "Vote recorded" post',
               mkDb (savePost post' (posts db))
                    (withUser uid
                       (fun user =>
                          addInterests (tags post')
                            (pushInteraction now (_id post') Vote user))
                       (users db)))
          end
    end.

(** [POST /api/posts/:id/like]: [includes] / [filter]. *)
Definition like (now : Z) (id : ObjectId) (uid : string) (db : Db)
    : Response Post * Db :=
  if String.eqb uid EmptyString then (error 400 "userId required", db)
  else
    match findById id (posts db) with
    | None => (error 404 "Post not found", db)
    | Some post =>
        if includes uid (likes post) then
          let post' :=
            setLikes post (filterOut uid (likes post)) (likesCount post - 1) in
          (ok "Unliked" post', mkDb (savePost post' (posts db)) (users db))
        else
          let post' :=
            setLikes post (push (likes post) uid) (likesCount post + 1) in
          (ok "Liked" post',
           mkDb (savePost post' (posts db))
                (withUser uid (pushInteraction now (_id post') Like)
                          (users db)))
    end.

(** [POST /api/posts/:id/share]. *)
Definition share (now : Z) (id : ObjectId) (uid : string) (db : Db)
    : Response Post * Db :=
  match findById id (posts db) with
  | None => (error 404 "Post not found", db)
  | Some post =>
      let post' := addShare post in
      (ok "Share recorded" post',
       mkDb (savePost post' (posts db))
            (withOptionalUser uid (pushInteraction now (_id post') Share)
                              (users db)))
  end.

(** [GET /api/users/:userId]. *)
Definition getUser (uid : string) (db : Db) : Response User :=
  match findOne uid (users db) with
  | None => error 404 "User not found"
  | Some user => ok EmptyString user
  end.

(** [POST /api/posts], answered with status 201; [newId] is the identifier
    [new Post] draws. *)
Definition createPost (now : Z) (newId : ObjectId)
    (creator name ttl : string) (opts tgs : option (list string)) (db : Db)
    : Response Post * Db :=
  match opts with
  | None => (error 400 "Missing required fields", db)
  | Some os =>
      if (String.eqb creator EmptyString || String.eqb name EmptyString
          || String.eqb ttl EmptyString)%bool
      then (error 400 "Missing required fields", db)
      else
        let post := newPost newId creator name ttl os (orEmpty tgs) now in
        match insertPost post (posts db) with
        | Some ps => (ok "Post created" post, mkDb ps (users db))
        | None => (error 500 "save failed", db)
        end
  end.

(** The body [{ posts, total, limit, skip }] of [GET /api/posts]. *)
Record Page := mkPage {
  page_posts : list Post;
  page_total : nat;
  page_limit : nat;
  page_skip : nat
}.

(** [GET /api/posts]. *)
Definition listPosts (q : Query) (db : Db) : Response Page :=
  let limit := queryOr (limit q) 20 in
  let skip := queryOr (skip q) 0 in
  ok EmptyString
     (mkPage (window limit skip (newestFirst (posts db)))
             (List.length (posts db)) limit skip).

(** [GET /api/users/:userId/posts]. *)
Definition userPosts (uid : string) (db : Db) : Response (list Post) :=
  ok EmptyString
     (newestFirst (filter (fun p => String.eqb (creatorId p) uid) (posts db))).

(** [DELETE /api/posts/:id]; [uid] is [req.query.userId], [None] when the
    query has none. *)
Definition deletePost (id : ObjectId) (uid : option string) (db : Db)
    : Response unit * Db :=
  match findById id (posts db) with
  | None => (error 404 "Post not found", db)
  | Some post =>
      match uid with
      | Some u =>
          if String.eqb (creatorId post) u
          then (ok "Post deleted" tt,
                mkDb (findByIdAndDelete id (posts db)) (users db))
          else (error 403 "Not authorized", db)
      | None => (error 403 "Not authorized", db)
      end
  end.

End Tracking.

(** ** Operation sequences on one post *)

(** The requests that write to a post. *)
Inductive Request :=
| ReqVote (id : ObjectId) (optionIndex : Z) (uid : string)
| ReqLike (id : ObjectId) (uid : string)
| ReqShare (id : ObjectId) (uid : string)
| ReqView (id : ObjectId) (uid : string).

(** src/server.js routes votes and likes only; the other two requests find
    no route and leave the store as it is. *)
Definition serverStep (db : Db) (r : Request) : Db :=
  match r with
  | ReqVote id i uid => snd (Server.vote id i uid db)
  | ReqLike id uid => snd (Server.like id uid db)
  | ReqShare _ _ => db
  | ReqView _ _ => db
  end.

(** A request of the tracking service comes with its [Date.now()]. *)
Definition trackingStep (db : Db) (r : Z * Request) : Db :=
  match snd r with
  | ReqVote id i uid => snd (Tracking.vote (fst r) id i uid db)
  | ReqLike id uid => snd (Tracking.like (fst r) id uid db)
  | ReqShare id uid => snd (Tracking.share (fst r) id uid db)
  | ReqView id uid => snd (Tracking.getPost (fst r) id uid db)
  end.

Definition runServer (reqs : list Request) (db : Db) : Db :=
  fold_left serverStep reqs db.

Definition runTracking (reqs : list (Z * Request)) (db : Db) : Db :=
  fold_left trackingStep reqs db.

Definition sumVotes (opts : list PollOption) : Z :=
  fold_right (fun o acc => votes o + acc) 0 opts.

(** The counter invariants of a post, with [likes] a set. *)
Definition countersAgree (p : Post) : Prop :=
  totalVotes p = sumVotes (options p) /\
  likesCount p = Z.of_nat (List.length (likes p)) /\
  NoDup (likes p).

(** The user identifier is in the voters of some option of the post. *)
Definition votedAnyOption (p : Post) (uid : string) : Prop :=
  exists opt, In opt (options p) /\ In uid (voters opt).

(** Option by option, [p'] has the text of [p] and its voters, followed by
    later ones: no recorded vote moved or disappeared. *)
Definition votersKept (p p' : Post) : Prop :=
  Forall2 (fun o o' => text o' = text o /\
                       exists more, voters o' = (voters o ++ more)%list)
          (options p) (options p').

(** What a handler writes back with [post.save()]. *)
Inductive mutation (p : Post) : Post -> Prop :=
| mut_vote (n : nat) (o : PollOption) (uid : string) :
    nth_error (options p) n = Some o ->
    hasVoted p uid = false ->
    mutation p (addVote p n uid)
| mut_like (uid : string) :
    includes uid (likes p) = false ->
    mutation p (setLikes p (push (likes p) uid) (likesCount p + 1))
| mut_unlike_splice (uid : string) :
    includes uid (likes p) = true ->
    mutation p (setLikes p (spliceFirst uid (likes p)) (likesCount p - 1))
| mut_unlike_filter (uid : string) :
    includes uid (likes p) = true ->
    mutation p (setLikes p (filterOut uid (likes p)) (likesCount p - 1))
| mut_share : mutation p (addShare p)
| mut_view : mutation p (addView p).

(** A request leaves the posts alone or saves one mutated post. *)
Definition storeStep (ps ps' : list Post) : Prop :=
  ps' = ps \/
  exists id p p',
    findById id ps = Some p /\ mutation p p' /\ ps' = savePost p' ps.

(** The user [uid] of [db] has, in [db'], exactly one more interaction
    record, [record], at the end of the log; any other user is as before. *)
Definition appended (uid : string) (record : Interaction) (db db' : Db)
    : Prop :=
  exists user user',
    findOne uid (users db) = Some user /\
    findOne uid (users db') = Some user' /\
    interactions user' = push (interactions user) record /\
    forall other, other <> uid ->
                  findOne other (users db') = findOne other (users db).

(** The post [id] is served to [uid] by a feed request whose window takes
    in the whole store; and if [uid] registers, the log of the new record
    does not keep the post out of the aggregation. *)
Definition eligibleFor (uid : string) (id : ObjectId) (db : Db) : Prop :=
  (forall (now : Z) (limit : nat),
      (List.length (posts db) <= limit)%nat ->
      exists page d,
        Tracking.getPersonalizedFeed now uid limit 0 db = Some page /\
        In d page /\ _id (doc d) = id) /\
  (forall (name : string) (u : User) (p : Post),
      findOne uid (users (snd (Tracking.createUser uid name db))) = Some u ->
      findById id (posts db) = Some p ->
      interactions u = [] /\
      notIn (map postId (interactions u)) p = true).

(** ** Orders of the two rankings *)

(** [a] may stand before [b] under [{ relevanceScore: -1, createdAt: -1 }]. *)
Definition rankedBefore (a b : FeedDoc) : Prop :=
  (relevanceOf b < relevanceOf a)%R \/
  (relevanceOf a = relevanceOf b /\ createdAt (doc b) <= createdAt (doc a)).

(** [p] may stand before [q] under [{ trendingScore: -1, createdAt: -1 }]. *)
Definition trendsBefore (p q : Post) : Prop :=
  (trendingScore q < trendingScore p)%R \/
  (trendingScore p = trendingScore q /\ createdAt q <= createdAt p).

(** ** Sample stores *)

Definition sportsFan : User := mkUser "u1" "Ann" [] ["sports"; "news"].

Definition sportsPost : Post :=
  mkPost 7%nat "u2" "Bob" "Final" [mkOption "yes" 0 []; mkOption "no" 0 []]
         0 [] 0 0 0 ["sports"; "tech"] 0 5%R 5%R.

Definition sportsDb : Db := mkDb [sportsPost] [sportsFan].

Definition postA : Post :=
  mkPost 1%nat "u2" "Bob" "A" [mkOption "yes" 1 ["u9"]; mkOption "no" 0 []]
         1 [] 0 0 0 [] 0 2%R 2%R.

Definition postB : Post :=
  mkPost 2%nat "u2" "Bob" "B" [mkOption "yes" 0 []; mkOption "no" 1 ["u9"]]
         1 [] 0 1 0 [] 0 1%R 1%R.

Definition twoPosts : Db := mkDb [postA; postB] [sportsFan].

(** A user who has only viewed [sportsPost]. *)
Definition viewer : User :=
  mkUser "u1" "Ann" [mkInteraction 7%nat View 0] [].

Definition viewedDb : Db := mkDb [sportsPost; postA] [viewer].


(** ** Calls of the whole interface *)

(** Every route that writes to the store. *)
Inductive Call :=
| CallRequest (now : Z) (r : Request)
| CallCreateUser (uid name : string)
| CallCreatePost (now : Z) (newId : ObjectId) (creator name ttl : string)
                 (opts tgs : option (list string))
| CallDelete (id : ObjectId) (uid : option string).

Definition trackingCall (db : Db) (c : Call) : Db :=
  match c with
  | CallRequest now r => trackingStep db (now, r)
  | CallCreateUser uid name => snd (Tracking.createUser uid name db)
  | CallCreatePost now newId creator name ttl opts tgs =>
      snd (Tracking.createPost now newId creator name ttl opts tgs db)
  | CallDelete id uid => snd (Tracking.deletePost id uid db)
  end.

(** src/server.js has no route that deletes. *)
Definition serverCall (db : Db) (c : Call) : Db :=
  match c with
  | CallRequest _ r => serverStep db r
  | CallCreateUser uid name => snd (Server.createUser uid name db)
  | CallCreatePost now newId creator name ttl opts tgs =>
      snd (Server.createPost now newId creator name ttl opts tgs db)
  | CallDelete _ _ => db
  end.

Definition emptyDb : Db := mkDb [] [].

(** All voters of a post, option after option. *)
Definition allVoters (p : Post) : list string :=
  List.concat (map voters (options p)).

(** Each option counts its voters, and nobody is a voter twice. *)
Definition votersAgree (p : Post) : Prop :=
  Forall (fun o => votes o = Z.of_nat (List.length (voters o))) (options p) /\
  NoDup (allVoters p).

Definition postOk (p : Post) : Prop :=
  countersAgree p /\ votersAgree p /\ validates p = true.

Definition userOk (u : User) : Prop :=
  userId u <> EmptyString /\ username u <> EmptyString /\
  NoDup (interests u).

(** What every store reached through the interface satisfies. *)
Record wellFormed (db : Db) : Prop := mkWellFormed {
  wf_post_ids : NoDup (map _id (posts db));
  wf_user_ids : NoDup (map userId (users db));
  wf_posts : Forall postOk (posts db);
  wf_users : Forall userOk (users db)
}.

(** [u'] is [u] with a longer interaction log and more interests. *)
Definition userKept (u u' : User) : Prop :=
  userId u' = userId u /\ username u' = username u /\
  (exists more, interactions u' = (interactions u ++ more)%list) /\
  (exists more, interests u' = (interests u ++ more)%list).

(** How one call may change the users. *)
Inductive usersStep (us : list User) : list User -> Prop :=
| users_same : usersStep us us
| users_saved (uid : string) (u u' : User) :
    findOne uid us = Some u ->
    userKept u u' ->
    (NoDup (interests u) -> NoDup (interests u')) ->
    usersStep us (saveUser u' us)
| users_added (uid name : string) :
    findOne uid us = None ->
    uid <> EmptyString -> name <> EmptyString ->
    usersStep us (push us (mkUser uid name [] [])).

(** How one call may change the posts. *)
Inductive postsStep (ps : list Post) : list Post -> Prop :=
| posts_mutated (ps' : list Post) : storeStep ps ps' -> postsStep ps ps'
| posts_inserted (id : ObjectId) (creator name ttl : string)
                 (os tgs : list string) (now : Z) (ps' : list Post) :
    insertPost (newPost id creator name ttl os tgs now) ps = Some ps' ->
    postsStep ps ps'
| posts_deleted (id : ObjectId) : postsStep ps (findByIdAndDelete id ps).

(** [body] is [post] after one vote of [uid] for the option at index [i]:
    that option has one more vote and [uid] as its last voter, [totalVotes]
    is one higher, and the other options and each of the other twelve
    fields are as in [post]. *)
Definition votedOn (post body : Post) (i : Z) (uid : string) : Prop :=
  exists (n : nat) (o : PollOption),
    i = Z.of_nat n /\
    nth_error (options post) n = Some o /\
    hasVoted post uid = false /\
    nth_error (options body) n
    = Some (mkOption (text o) (votes o + 1) (voters o ++ [uid])%list) /\
    (forall m, m <> n ->
               nth_error (options body) m = nth_error (options post) m) /\
    List.length (options body) = List.length (options post) /\
    totalVotes body = totalVotes post + 1 /\
    likes body = likes post /\ likesCount body = likesCount post /\
    shares body = shares post /\ views body = views post /\
    tags body = tags post /\ createdAt body = createdAt post /\
    trendingScore body = trendingScore post /\ _id body = _id post /\
    creatorId body = creatorId post /\
    creatorName body = creatorName post /\ title body = title post /\
    engagementScore body = engagementScore post.

(** The posts [ps'] are the posts [ps] with the post [id] replaced by
    [body]. *)
Definition replaced (id : ObjectId) (body : Post) (ps ps' : list Post)
    : Prop :=
  findById id ps' = Some body /\
  (forall x, x <> id -> findById x ps' = findById x ps) /\
  map _id ps' = map _id ps.


(** What a creation needs to be accepted. *)
Definition creatable (db : Db) (newId : ObjectId) (creator name ttl : string)
    (os : list string) : Prop :=
  creator <> EmptyString /\ name <> EmptyString /\
  ttl <> EmptyString /\ Forall (fun o => o <> EmptyString) os /\
  findById newId (posts db) = None.

(** [p] may stand before [q] under [{ createdAt: -1 }]. *)
Definition newerFirst (p q : Post) : Prop := createdAt q <= createdAt p.

(** [p'] is [p] as far as identity, content and scores go, and no counter
    of [p'] is below the one of [p]. *)
Definition frameKept (p p' : Post) : Prop :=
  _id p' = _id p /\ creatorId p' = creatorId p /\
  creatorName p' = creatorName p /\ title p' = title p /\
  tags p' = tags p /\ createdAt p' = createdAt p /\
  engagementScore p' = engagementScore p /\
  trendingScore p' = trendingScore p /\
  map text (options p') = map text (options p) /\
  totalVotes p <= totalVotes p' /\ shares p <= shares p' /\
  views p <= views p'.

(** ** Bounds on [exp (-1/2)] *)

Section ExpBounds.
Open Scope R_scope.

Lemma exp_neg_lower (x : R) : 1 - x <= exp (- x).
Proof.
  pose proof (exp_ineq1_le (- x)). lra.
Qed.

Lemma exp_neg_upper (x : R) : -1 < x -> exp (- x) <= / (1 + x).
Proof.
  intros Hx.
  rewrite exp_Ropp.
  apply Rinv_le_contravar; [lra | apply exp_ineq1_le].
Qed.

Lemma exp_double (x : R) : exp (2 * x) = exp x * exp x.
Proof.
  replace (2 * x) with (x + x) by lra. apply exp_plus.
Qed.

(** One squaring step of an enclosure [l <= exp x <= u]. *)
Lemma exp_square_step (x l u l' u' : R) :
  0 <= l -> l <= exp x <= u -> l' <= l * l -> u * u <= u' ->
  l' <= exp (2 * x) <= u'.
Proof.
  intros Hl [H1 H2] Hl' Hu'.
  rewrite exp_double. split; nra.
Qed.

Lemma exp_4096 : 0.999755859 <= exp (- (1 / 4096)) <= 0.999755919.
Proof.
  split.
  - pose proof (exp_neg_lower (1 / 4096)). lra.
  - pose proof (exp_neg_upper (1 / 4096) ltac:(lra)) as H.
    eapply Rle_trans; [exact H|].
    apply Rmult_le_reg_l with (r := 1 + 1 / 4096); [lra|].
    rewrite Rinv_r by lra. lra.
Qed.

Ltac exp_step H x :=
  match type of H with
  | ?l <= exp ?y <= ?u =>
      replace x with (2 * y) by lra;
      apply (exp_square_step y l u); [lra | exact H | lra | lra]
  end.

Lemma exp_neg_half_bounds : 0.606492483 <= exp (- (1 / 2)) <= 0.60656839.
Proof.
  pose proof exp_4096 as H12.
  assert (H11 : 0.999511777 <= exp (- (1 / 2048)) <= 0.999511898)
    by exp_step H12 (- (1 / 2048)).
  assert (H10 : 0.999023792 <= exp (- (1 / 1024)) <= 0.999024035)
    by exp_step H11 (- (1 / 1024)).
  assert (H9 : 0.998048536 <= exp (- (1 / 512)) <= 0.998049023)
    by exp_step H10 (- (1 / 512)).
  assert (H8 : 0.99610088 <= exp (- (1 / 256)) <= 0.996101853)
    by exp_step H9 (- (1 / 256)).
  assert (H7 : 0.992216963 <= exp (- (1 / 128)) <= 0.992218902)
    by exp_step H8 (- (1 / 128)).
  assert (H6 : 0.984494501 <= exp (- (1 / 64)) <= 0.98449835)
    by exp_step H7 (- (1 / 64)).
  assert (H5 : 0.969229422 <= exp (- (1 / 32)) <= 0.969237002)
    by exp_step H6 (- (1 / 32)).
  assert (H4 : 0.939405672 <= exp (- (1 / 16)) <= 0.939420367)
    by exp_step H5 (- (1 / 16)).
  assert (H3 : 0.882483016 <= exp (- (1 / 8)) <= 0.882510626)
    by exp_step H4 (- (1 / 8)).
  assert (H2 : 0.778776273 <= exp (- (1 / 4)) <= 0.778825006)
    by exp_step H3 (- (1 / 4)).
  exp_step H2 (- (1 / 2)).
Qed.

End ExpBounds.

(** ** Engagement score: formula and monotonicity *)

Section Score.
Open Scope R_scope.

Lemma rawScore_counters (created tv lc sh vw : Z) :
  rawScore (counters_post created tv lc sh vw)
  = IZR tv + IZR lc / 2 + 2 * IZR sh + IZR vw / 10.
Proof.
  unfold rawScore, counters_post; simpl. lra.
Qed.

Lemma decay_one_day (created : Z) (p : Post) :
  createdAt p = created ->
  decayFactor (created + 24 * 3600000)%Z p = exp (- (1 / 2)).
Proof.
  intros Hc. unfold decayFactor, ageInHours. rewrite Hc.
  f_equal. rewrite plus_IZR, mult_IZR. lra.
Qed.

Lemma decayFactor_pos (now : Z) (p : Post) : 0 < decayFactor now p.
Proof. apply exp_pos. Qed.

Lemma decayFactor_antitone (now1 now2 : Z) (p : Post) :
  (now1 <= now2)%Z -> decayFactor now2 p <= decayFactor now1 p.
Proof.
  intros Hle. unfold decayFactor, ageInHours.
  apply IZR_le in Hle.
  destruct (Req_dec (IZR now1) (IZR now2)) as [He | Hne].
  - rewrite He. lra.
  - left. apply exp_increasing. lra.
Qed.

Lemma rawScore_nonneg (p : Post) :
  (0 <= totalVotes p)%Z -> (0 <= likesCount p)%Z ->
  (0 <= shares p)%Z -> (0 <= views p)%Z -> 0 <= rawScore p.
Proof.
  intros H1 H2 H3 H4.
  apply IZR_le in H1, H2, H3, H4. unfold rawScore. lra.
Qed.

Lemma rawScore_monotone (p q : Post) :
  (totalVotes p <= totalVotes q)%Z -> (likesCount p <= likesCount q)%Z ->
  (shares p <= shares q)%Z -> (views p <= views q)%Z ->
  rawScore p <= rawScore q.
Proof.
  intros H1 H2 H3 H4.
  apply IZR_le in H1, H2, H3, H4. unfold rawScore. lra.
Qed.

(** C1: the score is the weighted counter sum times [e^(-ageInHours/48)],
    with [ageInHours] the age in milliseconds over 3600000; a post with
    counters 10, 4, 3, 50 at age 24 hours scores [23 * e^(-0.5)], which lies
    between 13.949 and 13.952; a post whose four counters are zero scores 0
    at every time. *)
Theorem score_formula :
  (forall (post : Post) (now : Z),
      calculateEngagementScore now post
      = (IZR (totalVotes post) * 1 + IZR (likesCount post) * 0.5
         + IZR (shares post) * 2 + IZR (views post) * 0.1)
        * exp (- ((IZR now - IZR (createdAt post)) / 3600000) / 48)) /\
  (forall created : Z,
      let s := calculateEngagementScore (created + 24 * 3600000)%Z
                 (counters_post created 10 4 3 50) in
      s = 23 * exp (- 0.5) /\ 13.949 < s < 13.952) /\
  (forall created now : Z,
      calculateEngagementScore now (counters_post created 0 0 0 0) = 0).
Proof.
  split; [| split].
  - intros post now.
    unfold calculateEngagementScore, rawScore, decayFactor, ageInHours.
    do 3 f_equal. lra.
  - intros created s.
    assert (Hs : s = 23 * exp (- (1 / 2))).
    { unfold s, calculateEngagementScore.
      rewrite (decay_one_day created) by reflexivity.
      rewrite rawScore_counters. lra. }
    split.
    + rewrite Hs. do 2 f_equal. lra.
    + rewrite Hs. pose proof exp_neg_half_bounds. lra.
  - intros created now. unfold calculateEngagementScore.
    rewrite rawScore_counters. lra.
Qed.

(** C7: with non-negative counters the score does not increase as [now]
    grows, and at a fixed time and creation instant it does not decrease
    when any of the four counters grows. *)
Theorem score_monotone :
  forall (p q : Post) (now1 now2 : Z),
    (0 <= totalVotes p)%Z -> (0 <= likesCount p)%Z ->
    (0 <= shares p)%Z -> (0 <= views p)%Z ->
    (now1 <= now2)%Z ->
    createdAt q = createdAt p ->
    (totalVotes p <= totalVotes q)%Z -> (likesCount p <= likesCount q)%Z ->
    (shares p <= shares q)%Z -> (views p <= views q)%Z ->
    calculateEngagementScore now2 p <= calculateEngagementScore now1 p /\
    calculateEngagementScore now1 p <= calculateEngagementScore now1 q.
Proof.
  intros p q now1 now2 Hv Hl Hs Hw Hnow Hc Hv' Hl' Hs' Hw'.
  unfold calculateEngagementScore. split.
  - apply Rmult_le_compat_l.
    + now apply rawScore_nonneg.
    + now apply decayFactor_antitone.
  - replace (decayFactor now1 q) with (decayFactor now1 p)
      by (unfold decayFactor, ageInHours; now rewrite Hc).
    apply Rmult_le_compat_r.
    + left. apply decayFactor_pos.
    + now apply rawScore_monotone.
Qed.

Lemma score_monotone_witness :
  calculateEngagementScore 7200000 (counters_post 0 10 4 3 50)
  <= calculateEngagementScore 3600000 (counters_post 0 10 4 3 50) /\
  calculateEngagementScore 3600000 (counters_post 0 10 4 3 50)
  <= calculateEngagementScore 3600000 (counters_post 0 11 4 3 50).
Proof.
  apply (score_monotone (counters_post 0 10 4 3 50)
                        (counters_post 0 11 4 3 50) 3600000 7200000);
    simpl; first [reflexivity | lia].
Defined.

End Score.

(** ** Sorting facts *)

Section SortingFacts.
Context {A : Type}.
Variable precedes : A -> A -> bool.

(** [a] is not after [b]: [b] does not sort strictly before [a]. *)
Let notAfter (a b : A) : Prop := precedes b a = false.

Hypothesis precedes_asym :
  forall a b, precedes a b = true -> precedes b a = false.
Hypothesis notAfter_trans :
  forall a b c, notAfter a b -> notAfter b c -> notAfter a c.

Lemma insertSorted_perm (x : A) (l : list A) :
  Permutation (insertSorted precedes x l) (x :: l).
Proof.
  induction l as [| y rest IH]; simpl.
  - apply Permutation_refl.
  - destruct (precedes y x).
    + apply perm_trans with (y :: x :: rest).
      * now apply perm_skip.
      * apply perm_swap.
    + apply Permutation_refl.
Qed.

Lemma sortBy_perm (l : list A) : Permutation (sortBy precedes l) l.
Proof.
  induction l as [| x rest IH]; simpl.
  - apply perm_nil.
  - apply perm_trans with (x :: sortBy precedes rest).
    + apply insertSorted_perm.
    + now apply perm_skip.
Qed.

Lemma insertSorted_sorted (x : A) (l : list A) :
  StronglySorted notAfter l ->
  StronglySorted notAfter (insertSorted precedes x l).
Proof.
  induction 1 as [| y rest Hs IH Hall]; simpl.
  - constructor; constructor.
  - destruct (precedes y x) eqn:Hyx.
    + constructor; [exact IH |].
      apply Forall_forall. intros z Hz.
      apply (Permutation_in _ (insertSorted_perm x rest)) in Hz.
      destruct Hz as [<- | Hz].
      * now apply precedes_asym.
      * rewrite Forall_forall in Hall. now apply Hall.
    + constructor; [now constructor |].
      constructor; [exact Hyx |].
      apply Forall_forall. intros z Hz.
      rewrite Forall_forall in Hall.
      apply notAfter_trans with y; [exact Hyx | now apply Hall].
Qed.

Lemma sortBy_sorted (l : list A) : StronglySorted notAfter (sortBy precedes l).
Proof.
  induction l as [| x rest IH]; simpl.
  - constructor.
  - now apply insertSorted_sorted.
Qed.
End SortingFacts.

Lemma firstn_member {A : Type} (n : nat) (l : list A) (x : A) :
  In x (firstn n l) -> In x l.
Proof.
  revert l. induction n as [| n IH]; intros [| y rest]; simpl; try tauto.
  intros [H | H]; [now left | right; now apply IH].
Qed.

Lemma skipn_member {A : Type} (n : nat) (l : list A) (x : A) :
  In x (skipn n l) -> In x l.
Proof.
  revert l. induction n as [| n IH]; intros [| y rest]; simpl; try tauto.
  intros H. right. now apply IH.
Qed.

Lemma StronglySorted_skipn {A : Type} (R : A -> A -> Prop) (n : nat)
    (l : list A) :
  StronglySorted R l -> StronglySorted R (skipn n l).
Proof.
  revert l. induction n as [| n IH]; intros l Hs; simpl.
  - exact Hs.
  - destruct l as [| x rest]; [constructor |].
    apply IH. now inversion Hs.
Qed.

Lemma StronglySorted_firstn {A : Type} (R : A -> A -> Prop) (n : nat)
    (l : list A) :
  StronglySorted R l -> StronglySorted R (firstn n l).
Proof.
  revert l. induction n as [| n IH]; intros l Hs; simpl.
  - constructor.
  - destruct l as [| x rest]; [constructor |].
    inversion Hs as [| ? ? Hrest Hall]; subst.
    constructor; [now apply IH |].
    rewrite Forall_forall in *. intros z Hz.
    apply Hall. eapply firstn_member; eassumption.
Qed.

Lemma StronglySorted_window {A : Type} (R : A -> A -> Prop)
    (limit skip : nat) (l : list A) :
  StronglySorted R l -> StronglySorted R (window limit skip l).
Proof.
  intros Hs. unfold window.
  now apply StronglySorted_firstn, StronglySorted_skipn.
Qed.

Lemma In_window {A : Type} (limit skip : nat) (l : list A) (x : A) :
  In x (window limit skip l) -> In x l.
Proof.
  unfold window. intros H.
  apply firstn_member in H. eapply skipn_member; eassumption.
Qed.

Lemma window_all {A : Type} (limit : nat) (l : list A) :
  (List.length l <= limit)%nat -> window limit 0 l = l.
Proof.
  intros H. unfold window. simpl. now apply firstn_all2.
Qed.

(** ** The two sort specifications *)

Lemma descending2_false (k1 k1' : R) (k2 k2' : Z) :
  descending2 k1' k1 k2' k2 = false <->
  (k1' < k1)%R \/ (k1 = k1' /\ k2' <= k2).
Proof.
  unfold descending2.
  destruct (Rlt_dec k1 k1') as [H | H].
  - split; [discriminate | intros [H' | [H' _]]; lra].
  - destruct (Rlt_dec k1' k1) as [H' | H'].
    + split; [now left | reflexivity].
    + rewrite Z.ltb_ge. split.
      * intros Hz. right. split; [lra | exact Hz].
      * intros [Hlt | [_ Hz]]; [lra | exact Hz].
  Qed.

Lemma descending2_asym (k1 k1' : R) (k2 k2' : Z) :
  descending2 k1 k1' k2 k2' = true -> descending2 k1' k1 k2' k2 = false.
Proof.
  intros H. apply descending2_false.
  unfold descending2 in H.
  destruct (Rlt_dec k1' k1) as [Hlt | Hn]; [now left |].
  destruct (Rlt_dec k1 k1') as [Hlt' | Hn']; [discriminate |].
  apply Z.ltb_lt in H. right. split; [lra | lia].
Qed.

Lemma byRelevance_notAfter (a b : FeedDoc) :
  byRelevance b a = false <-> rankedBefore a b.
Proof. unfold byRelevance, rankedBefore. apply descending2_false. Qed.

Lemma byTrending_notAfter (p q : Post) :
  byTrending q p = false <-> trendsBefore p q.
Proof. unfold byTrending, trendsBefore. apply descending2_false. Qed.

Lemma rankedBefore_trans (a b c : FeedDoc) :
  rankedBefore a b -> rankedBefore b c -> rankedBefore a c.
Proof.
  unfold rankedBefore.
  intros [H1 | [H1 H1']] [H2 | [H2 H2']].
  - left; lra.
  - left; lra.
  - left; lra.
  - right. split; [lra | lia].
Qed.

Lemma trendsBefore_trans (p q r : Post) :
  trendsBefore p q -> trendsBefore q r -> trendsBefore p r.
Proof.
  unfold trendsBefore.
  intros [H1 | [H1 H1']] [H2 | [H2 H2']].
  - left; lra.
  - left; lra.
  - left; lra.
  - right. split; [lra | lia].
Qed.

Lemma StronglySorted_iff {A : Type} (R S : A -> A -> Prop) (l : list A) :
  (forall a b, R a b -> S a b) -> StronglySorted R l -> StronglySorted S l.
Proof.
  intros HRS. induction 1 as [| x rest Hs IH Hall]; constructor.
  - exact IH.
  - eapply Forall_impl; [| exact Hall]. intros b. apply HRS.
Qed.

Lemma sortBy_byRelevance_sorted (l : list FeedDoc) :
  StronglySorted rankedBefore (sortBy byRelevance l).
Proof.
  apply StronglySorted_iff with (R := fun a b => byRelevance b a = false).
  - intros a b. apply byRelevance_notAfter.
  - apply sortBy_sorted.
    + intros a b. unfold byRelevance. apply descending2_asym.
    + intros a b c Hab Hbc. apply byRelevance_notAfter.
      apply byRelevance_notAfter in Hab, Hbc.
      eapply rankedBefore_trans; eassumption.
Qed.

Lemma trendingOrder_sorted (ps : list Post) :
  StronglySorted trendsBefore (trendingOrder ps).
Proof.
  apply StronglySorted_iff with (R := fun p q => byTrending q p = false).
  - intros p q. apply byTrending_notAfter.
  - apply sortBy_sorted.
    + intros p q. unfold byTrending. apply descending2_asym.
    + intros p q r Hpq Hqr. apply byTrending_notAfter.
      apply byTrending_notAfter in Hpq, Hqr.
      eapply trendsBefore_trans; eassumption.
Qed.

Lemma trendingOrder_perm (ps : list Post) : Permutation (trendingOrder ps) ps.
Proof. apply sortBy_perm. Qed.

(** ** The aggregation *)

Lemma addFields_spec (score : Post -> option R) (ps : list Post)
    (ds : list FeedDoc) :
  addFields score ps = Some ds ->
  map doc ds = ps /\
  forall d, In d ds ->
            relevanceScore d = score (doc d) /\
            exists r, relevanceScore d = Some r.
Proof.
  revert ds. induction ps as [| p rest IH]; intros ds; simpl.
  - intros [= <-]. split; [reflexivity | intros d []].
  - destruct (score p) as [r |] eqn:Hp; [| discriminate].
    destruct (addFields score rest) as [ds' |]; [| discriminate].
    intros [= <-]. destruct (IH ds' eq_refl) as [Hdoc Hall].
    split; [simpl; now rewrite Hdoc |].
    intros d [<- | Hd]; [| now apply Hall].
    simpl. split; [now rewrite Hp | now exists r].
Qed.

Lemma addFields_total (f : Post -> R) (ps : list Post) :
  addFields (fun p => Some (f p)) ps = Some (map (scored f) ps).
Proof.
  induction ps as [| p rest IH]; simpl; [reflexivity |].
  now rewrite IH.
Qed.

Lemma addFields_fails (score : Post -> option R) (ps : list Post) (p : Post) :
  In p ps -> score p = None -> addFields score ps = None.
Proof.
  induction ps as [| q rest IH]; simpl; [tauto |].
  intros [-> | Hin] Hp.
  - now rewrite Hp.
  - rewrite (IH Hin Hp). now destruct (score q).
Qed.

Lemma aggregate_total (f : Post -> R) (interacted : list ObjectId)
    (limit skip : nat) (ps : list Post) :
  (0 < limit)%nat ->
  aggregate (fun p => Some (f p)) interacted limit skip ps
  = Some (window limit skip
            (sortBy byRelevance
               (map (scored f) (filter (notIn interacted) ps)))).
Proof.
  intros Hl. unfold aggregate. destruct limit as [| n]; [lia |].
  now rewrite addFields_total.
Qed.

Lemma aggregate_Some (score : Post -> option R) (interacted : list ObjectId)
    (limit skip : nat) (ps : list Post) (page : list FeedDoc) :
  aggregate score interacted limit skip ps = Some page ->
  (0 < limit)%nat /\
  exists ds,
    addFields score (filter (notIn interacted) ps) = Some ds /\
    page = window limit skip (sortBy byRelevance ds).
Proof.
  unfold aggregate. destruct limit as [| n]; [discriminate |].
  destruct (addFields score (filter (notIn interacted) ps)) as [ds |];
    [| discriminate].
  intros [= <-]. split; [lia |]. now exists ds.
Qed.

Lemma aggregate_In (score : Post -> option R) (interacted : list ObjectId)
    (limit skip : nat) (ps : list Post) (d : FeedDoc) :
  In d (pageOf (aggregate score interacted limit skip ps)) ->
  In (doc d) ps /\ notIn interacted (doc d) = true /\
  relevanceScore d = score (doc d).
Proof.
  destruct (aggregate score interacted limit skip ps) as [page |] eqn:Ha;
    [| intros []].
  simpl. intros H.
  apply aggregate_Some in Ha. destruct Ha as [_ [ds [Hds ->]]].
  apply In_window in H.
  apply (Permutation_in _ (sortBy_perm byRelevance _)) in H.
  destruct (addFields_spec _ _ _ Hds) as [Hdoc Hall].
  assert (Hin : In (doc d) (filter (notIn interacted) ps)).
  { rewrite <- Hdoc. now apply in_map. }
  apply filter_In in Hin. destruct Hin as [Hin Hnot].
  repeat split; try assumption. now apply Hall.
Qed.

Lemma notIn_spec (interacted : list ObjectId) (p : Post) :
  notIn interacted p = true <-> ~ In (_id p) interacted.
Proof.
  unfold notIn. rewrite negb_true_iff.
  split.
  - intros Hf Hin.
    assert (existsb (Nat.eqb (_id p)) interacted = true) as Ht.
    { apply existsb_exists. exists (_id p). split; [exact Hin |].
      apply Nat.eqb_refl. }
    congruence.
  - intros Hn. destruct (existsb (Nat.eqb (_id p)) interacted) eqn:He;
      [| reflexivity].
    apply existsb_exists in He. destruct He as [i [Hin Heq]].
    apply Nat.eqb_eq in Heq. subst. contradiction.
Qed.

Lemma includes_In (x : string) (arr : list string) :
  includes x arr = true <-> In x arr.
Proof.
  unfold includes. rewrite existsb_exists. split.
  - intros [y [Hin Heq]]. apply String.eqb_eq in Heq. now subst.
  - intros Hin. exists x. split; [exact Hin | apply String.eqb_refl].
Qed.

Lemma setIntersection_spec (a b : list string) :
  NoDup (setIntersection a b) /\
  forall t, In t (setIntersection a b) <-> In t a /\ In t b.
Proof.
  unfold setIntersection. split.
  - apply NoDup_nodup.
  - intros t. rewrite nodup_In, filter_In, includes_In. reflexivity.
Qed.

(** ** Personalized feed *)

Section Feed.
Open Scope R_scope.

Lemma trendingOrder_twoPosts : trendingOrder (posts twoPosts) = [postA; postB].
Proof.
  unfold trendingOrder, twoPosts, posts, sortBy, insertSorted.
  unfold byTrending, descending2, postA, postB, trendingScore.
  destruct (Rlt_dec 2 1) as [H | _]; [lra |].
  destruct (Rlt_dec 1 2) as [_ | H]; [reflexivity | lra].
Qed.

Lemma cursorWindow_positive {A : Type} (limit skip : nat) (l : list A) :
  (0 < limit)%nat -> cursorWindow limit skip l = window limit skip l.
Proof. destruct limit; [lia | reflexivity]. Qed.

Lemma queryOr_positive (q : option nat) (d : nat) :
  (0 < d)%nat -> (0 < queryOr q d)%nat.
Proof. destruct q as [[| n] |]; simpl; lia. Qed.

Lemma window_nil {A : Type} (limit skip : nat) :
  window limit skip (@nil A) = [].
Proof. unfold window. now rewrite skipn_nil, firstn_nil. Qed.

Lemma recency_fails (now : Z) (p : Post) : Tracking.recency now p = None.
Proof. reflexivity. Qed.

Lemma relevance_fails (now : Z) (userInterests : list string) (p : Post) :
  Tracking.relevance now userInterests p = None.
Proof. reflexivity. Qed.

Lemma Tracking_aggregate (now : Z) (userInterests : list string)
    (interacted : list ObjectId) (limit skip : nat) (ps : list Post) :
  (0 < limit)%nat ->
  aggregate (Tracking.relevance now userInterests) interacted limit skip ps
  = match filter (notIn interacted) ps with
    | [] => Some []
    | _ :: _ => None
    end.
Proof.
  intros Hl. unfold aggregate. destruct limit as [| n]; [lia |].
  destruct (filter (notIn interacted) ps) as [| p rest]; simpl.
  - now rewrite window_nil.
  - reflexivity.
Qed.

(** C2: in src/server.js, for a known user and a positive limit, the feed
    is a window of a ranking of exactly the eligible posts, every document
    of which carries [relevanceScore = 10 * (number of tags the post shares
    with the user's interests) + trendingScore], ranked by relevanceScore
    descending and then createdAt descending; a user with interests sports,
    news is served a post tagged sports, tech with trendingScore 5 at
    relevanceScore 15. In part_000 the recency term subtracts a date from a
    number, which the store refuses: the feed of a known user is empty when
    no post is eligible and is rejected, the route answering with status
    500, as soon as one is. *)
Theorem personalized_feed_ranking :
  forall (db : Db) (uid : string) (user : User) (now : Z) (limit skip : nat),
    findOne uid (users db) = Some user ->
    (0 < limit)%nat ->
    let eligible :=
      filter (notIn (map postId (interactions user))) (posts db) in
    let shared p :=
      INR (List.length (setIntersection (tags p) (interests user))) in
    (exists ranked : list FeedDoc,
        Server.getPersonalizedFeed uid limit skip db
        = Some (window limit skip ranked) /\
        Permutation (map doc ranked) eligible /\
        (forall d, In d ranked ->
                   relevanceScore d
                   = Some (10 * shared (doc d) + trendingScore (doc d))) /\
        StronglySorted rankedBefore ranked) /\
    (exists r : R,
        Server.getPersonalizedFeed "u1" 20 0 sportsDb
        = Some [mkFeedDoc sportsPost (Some r)] /\
        r = 15) /\
    (eligible = [] ->
     Tracking.getPersonalizedFeed now uid limit skip db = Some []) /\
    (eligible <> [] ->
     Tracking.getPersonalizedFeed now uid limit skip db = None /\
     forall q : Query,
       Tracking.feed now uid q db = error 500 "aggregate failed").
Proof.
  intros db uid user now limit skip Hu Hl eligible shared.
  split; [| split; [| split]].
  - unfold Server.getPersonalizedFeed. rewrite Hu.
    rewrite aggregate_total by exact Hl. fold eligible.
    exists (sortBy byRelevance
              (map (scored (fun p => tagScore (interests user) p
                                     + trendingScore p)) eligible)).
    split; [reflexivity |].
    pose proof (sortBy_perm byRelevance
                  (map (scored (fun p => tagScore (interests user) p
                                         + trendingScore p)) eligible))
      as Hperm.
    split; [| split].
    + eapply perm_trans; [apply Permutation_map; exact Hperm |].
      rewrite map_map. simpl. rewrite map_id. apply Permutation_refl.
    + intros d Hd. apply (Permutation_in _ Hperm) in Hd.
      apply in_map_iff in Hd. destruct Hd as [p [<- _]].
      unfold scored, tagScore, shared. simpl. f_equal. lra.
    + apply sortBy_byRelevance_sorted.
  - eexists. split; [reflexivity |].
    unfold tagScore. simpl. lra.
  - intros He. unfold Tracking.getPersonalizedFeed. rewrite Hu.
    rewrite Tracking_aggregate by exact Hl. fold eligible. now rewrite He.
  - intros Hne.
    assert (Hfail : forall l s,
               (0 < l)%nat ->
               Tracking.getPersonalizedFeed now uid l s db = None).
    { intros l s Hpos. unfold Tracking.getPersonalizedFeed. rewrite Hu.
      rewrite Tracking_aggregate by exact Hpos. fold eligible.
      destruct eligible; [contradiction | reflexivity]. }
    split; [now apply Hfail |].
    intros q. unfold Tracking.feed.
    rewrite Hfail by (apply queryOr_positive; lia). reflexivity.
Qed.

Lemma personalized_feed_ranking_witness :
  findOne "u1" (users sportsDb) = Some sportsFan /\
  filter (notIn (map postId (interactions sportsFan))) (posts sportsDb)
  = [sportsPost] /\
  Tracking.getPersonalizedFeed 0 "u1" 20 0 sportsDb = None /\
  Tracking.feed 0 "u1" (mkQuery None None) sportsDb
  = error 500 "aggregate failed".
Proof.
  split; [reflexivity |]. split; [reflexivity |].
  destruct (personalized_feed_ranking sportsDb "u1" sportsFan 0 20 0)
    as [_ [_ [_ H]]]; [reflexivity | lia |].
  destruct H as [H1 H2]; [simpl; discriminate |].
  split; [exact H1 | apply H2].
Defined.

(** C5: for a known user, no document of the feed has the [_id] of a post
    that occurs as [postId] of a record of the user's interaction log,
    whatever the kind of the record and whatever the window. *)
Theorem feed_excludes_interacted :
  forall (db : Db) (uid : string) (user : User) (now : Z)
         (limit skip : nat) (d : FeedDoc) (i : Interaction),
    findOne uid (users db) = Some user ->
    In d (pageOf (Server.getPersonalizedFeed uid limit skip db)) \/
    In d (pageOf (Tracking.getPersonalizedFeed now uid limit skip db)) ->
    In i (interactions user) ->
    _id (doc d) <> postId i.
Proof.
  intros db uid user now limit skip d i Hu Hd Hi Heq.
  unfold Server.getPersonalizedFeed, Tracking.getPersonalizedFeed in Hd.
  rewrite Hu in Hd.
  assert (Hnot : notIn (map postId (interactions user)) (doc d) = true).
  { destruct Hd as [Hd | Hd]; apply aggregate_In in Hd; tauto. }
  apply notIn_spec in Hnot. apply Hnot.
  rewrite Heq. now apply in_map.
Qed.

Lemma feed_excludes_interacted_witness :
  findOne "u1" (users viewedDb) = Some viewer /\
  ~ In 7%nat (map (fun d => _id (doc d))
                  (pageOf (Server.getPersonalizedFeed "u1" 20 0 viewedDb))).
Proof.
  split; [reflexivity |].
  intros H. apply in_map_iff in H. destruct H as [d [Hid Hd]].
  apply (feed_excludes_interacted viewedDb "u1" viewer 0 20 0 d
           (mkInteraction 7%nat View 0)).
  - reflexivity.
  - left. exact Hd.
  - simpl. now left.
  - exact Hid.
Defined.

Lemma fallback_feed (now : Z) (uid : string) (q : Query) (db : Db) :
  findOne uid (users db) = None ->
  Tracking.feed now uid q db
  = ok EmptyString
       (map plain (window (queryOr (limit q) 20) (queryOr (skip q) 0)
                          (trendingOrder (posts db)))).
Proof.
  intros Hu. unfold Tracking.feed, Tracking.getPersonalizedFeed.
  rewrite Hu.
  rewrite cursorWindow_positive by (apply queryOr_positive; lia).
  reflexivity.
Qed.

(** C6 as the code has it: for an identifier without a user record the
    feed is the window [[skip, skip + limit)] of all posts ordered by
    trendingScore descending then createdAt descending, and its output is
    the output of the trending endpoint for the same limit when the skip
    is absent or zero; the trending endpoint takes no skip. *)
Theorem unknown_user_feed_is_trending :
  forall (db : Db) (uid : string) (now : Z),
    findOne uid (users db) = None ->
    (forall limit skip : nat,
        (0 < limit)%nat ->
        Server.getPersonalizedFeed uid limit skip db
        = Some (map plain (window limit skip (trendingOrder (posts db)))) /\
        Tracking.getPersonalizedFeed now uid limit skip db
        = Some (map plain (window limit skip (trendingOrder (posts db))))) /\
    Permutation (trendingOrder (posts db)) (posts db) /\
    StronglySorted trendsBefore (trendingOrder (posts db)) /\
    (forall q : Query,
        queryOr (skip q) 0 = 0%nat ->
        exists ps : list Post,
          Tracking.trending q db = ok EmptyString ps /\
          Tracking.feed now uid q db = ok EmptyString (map plain ps)).
Proof.
  intros db uid now Hu.
  split; [| split; [| split]].
  - intros limit skip Hl.
    unfold Server.getPersonalizedFeed, Tracking.getPersonalizedFeed.
    rewrite Hu, cursorWindow_positive by exact Hl. split; reflexivity.
  - apply trendingOrder_perm.
  - apply trendingOrder_sorted.
  - intros q Hq. eexists. split; [reflexivity |].
    unfold Tracking.feed, Tracking.getPersonalizedFeed.
    rewrite Hu, Hq.
    rewrite cursorWindow_positive by (apply queryOr_positive; lia).
    reflexivity.
Qed.

Lemma unknown_user_feed_is_trending_witness :
  findOne "ghost" (users twoPosts) = None /\
  Tracking.getPersonalizedFeed 0 "ghost" 1 1 twoPosts = Some [plain postB].
Proof.
  split; [reflexivity |].
  pose proof (unknown_user_feed_is_trending twoPosts "ghost" 0) as H.
  destruct H as [H _]; [reflexivity |].
  destruct (H 1%nat 1%nat ltac:(lia)) as [_ ->].
  rewrite trendingOrder_twoPosts. reflexivity.
Defined.

(** C6 as stated fails when a skip is given: with two posts, limit 1 and
    skip 1, the feed of an unknown identifier returns the second post of the
    trending order while the trending endpoint, given the same query,
    returns the first. *)
Lemma feed_differs_from_trending_on_skip :
  let q := mkQuery (Some 1%nat) (Some 1%nat) in
  findOne "ghost" (users twoPosts) = None /\
  Tracking.feed 0 "ghost" q twoPosts = ok EmptyString [plain postB] /\
  Tracking.trending q twoPosts = ok EmptyString [postA] /\
  [plain postB] <> map plain [postA].
Proof.
  cbv zeta. split; [reflexivity |].
  rewrite fallback_feed by reflexivity.
  unfold Tracking.trending. rewrite trendingOrder_twoPosts.
  split; [reflexivity |]. split; [reflexivity |].
  simpl. intros H. inversion H.
Qed.
End Feed.

(** ** The store *)

Lemma findById_id (id : ObjectId) (ps : list Post) (p : Post) :
  findById id ps = Some p -> _id p = id.
Proof.
  induction ps as [| q rest IH]; simpl; [discriminate |].
  destruct (Nat.eqb (_id q) id) eqn:He.
  - intros [= <-]. now apply Nat.eqb_eq.
  - exact IH.
Qed.

Lemma findById_In (id : ObjectId) (ps : list Post) (p : Post) :
  findById id ps = Some p -> In p ps.
Proof.
  induction ps as [| q rest IH]; simpl; [discriminate |].
  destruct (Nat.eqb (_id q) id).
  - intros [= <-]. now left.
  - intros H. right. now apply IH.
Qed.

Lemma findById_savePost (id x : ObjectId) (ps : list Post) (p p' : Post) :
  findById id ps = Some p -> _id p' = id ->
  findById x (savePost p' ps)
  = if Nat.eqb id x then Some p' else findById x ps.
Proof.
  intros Hf Hid. induction ps as [| q rest IH]; simpl in *; [discriminate |].
  rewrite Hid.
  destruct (Nat.eqb (_id q) id) eqn:He.
  - apply Nat.eqb_eq in He. simpl. rewrite Hid, He.
    destruct (Nat.eqb id x); reflexivity.
  - simpl. destruct (Nat.eqb (_id q) x) eqn:Hx.
    + apply Nat.eqb_eq in Hx. subst x. rewrite Nat.eqb_sym, He. reflexivity.
    + now apply IH.
Qed.

Lemma savePost_Forall (P : Post -> Prop) (p' : Post) (ps : list Post) :
  Forall P ps -> P p' -> Forall P (savePost p' ps).
Proof.
  intros Hall Hp. induction Hall as [| q rest Hq Hrest IH]; simpl.
  - constructor.
  - destruct (Nat.eqb (_id q) (_id p')); constructor; assumption.
Qed.

Lemma at_index_nth {A : Type} (arr : list A) (i : Z) (x : A) :
  at_index arr i = Some x -> nth_error arr (Z.to_nat i) = Some x.
Proof.
  unfold at_index. destruct (i <? 0); [discriminate | trivial].
Qed.

(** ** Mutations of one post *)

Lemma mutation_id (p p' : Post) : mutation p p' -> _id p' = _id p.
Proof. intros []; reflexivity. Qed.

Lemma sumVotes_addVoter (uid : string) (n : nat) (opts : list PollOption)
    (o : PollOption) :
  nth_error opts n = Some o ->
  sumVotes (updateNth n (addVoter uid) opts) = sumVotes opts + 1.
Proof.
  revert n. induction opts as [| x rest IH]; intros [| n]; simpl;
    try discriminate.
  - intros _. lia.
  - intros H. rewrite (IH n H). lia.
Qed.

Lemma includes_false (x : string) (arr : list string) :
  includes x arr = false <-> ~ In x arr.
Proof.
  rewrite <- includes_In. destruct (includes x arr); split; congruence.
Qed.

Lemma push_NoDup (x : string) (arr : list string) :
  NoDup arr -> ~ In x arr -> NoDup (push arr x).
Proof.
  intros Hnd Hx. unfold push.
  apply NoDup_app; [exact Hnd | repeat constructor; intros [] |].
  intros y Hy [<- | []]. contradiction.
Qed.

Lemma spliceFirst_length (x : string) (arr : list string) :
  In x arr -> S (List.length (spliceFirst x arr)) = List.length arr.
Proof.
  induction arr as [| y rest IH]; simpl; [tauto |].
  destruct (String.eqb y x) eqn:He.
  - reflexivity.
  - intros [-> | H]; [rewrite String.eqb_refl in He; discriminate |].
    simpl. now rewrite (IH H).
Qed.

Lemma spliceFirst_incl (x y : string) (arr : list string) :
  In y (spliceFirst x arr) -> In y arr.
Proof.
  induction arr as [| z rest IH]; simpl; [tauto |].
  destruct (String.eqb z x); simpl; [tauto |].
  intros [H | H]; [now left | right; now apply IH].
Qed.

Lemma spliceFirst_NoDup (x : string) (arr : list string) :
  NoDup arr -> NoDup (spliceFirst x arr).
Proof.
  induction 1 as [| y rest Hy Hnd IH]; simpl; [constructor |].
  destruct (String.eqb y x); [exact Hnd |].
  constructor; [| exact IH].
  intros H. apply Hy. eapply spliceFirst_incl; eassumption.
Qed.

Lemma filterOut_fresh (x : string) (arr : list string) :
  ~ In x arr -> filterOut x arr = arr.
Proof.
  induction arr as [| y rest IH]; simpl; [reflexivity |].
  intros H. destruct (String.eqb y x) eqn:He.
  - apply String.eqb_eq in He. subst. exfalso. apply H. now left.
  - simpl. f_equal. apply IH. tauto.
Qed.

Lemma filterOut_length (x : string) (arr : list string) :
  NoDup arr -> In x arr ->
  S (List.length (filterOut x arr)) = List.length arr.
Proof.
  induction 1 as [| y rest Hy Hnd IH]; simpl; [tauto |].
  destruct (String.eqb y x) eqn:He; simpl.
  - apply String.eqb_eq in He. subst y. intros _.
    fold (filterOut x rest). now rewrite (filterOut_fresh x rest Hy).
  - intros [-> | H]; [rewrite String.eqb_refl in He; discriminate |].
    fold (filterOut x rest). now rewrite (IH H).
Qed.

Lemma mutation_countersAgree (p p' : Post) :
  countersAgree p -> mutation p p' -> countersAgree p'.
Proof.
  intros [Hv [Hl Hnd]] Hm. unfold countersAgree.
  destruct Hm as [n o uid Hn _ | uid Hi | uid Hi | uid Hi | |]; simpl;
    [| | | | repeat split; assumption ..].
  - rewrite (sumVotes_addVoter uid n _ o Hn). repeat split; [lia | easy ..].
  - apply includes_false in Hi.
    repeat split; [exact Hv | | now apply push_NoDup].
    unfold push. rewrite length_app. simpl. lia.
  - apply includes_In in Hi.
    repeat split; [exact Hv | | now apply spliceFirst_NoDup].
    pose proof (spliceFirst_length uid (likes p) Hi). lia.
  - apply includes_In in Hi.
    repeat split; [exact Hv | | now apply NoDup_filter].
    pose proof (filterOut_length uid (likes p) Hnd Hi). lia.
Qed.

Lemma votersKept_refl_options (opts : list PollOption) :
  Forall2 (fun o o' => text o' = text o /\
                       exists more, voters o' = (voters o ++ more)%list)
          opts opts.
Proof.
  induction opts as [| o rest IH]; constructor; [| exact IH].
  split; [reflexivity |]. exists []. now rewrite app_nil_r.
Qed.

Lemma votersKept_refl (p : Post) : votersKept p p.
Proof. apply votersKept_refl_options. Qed.

Lemma votersKept_trans (p q r : Post) :
  votersKept p q -> votersKept q r -> votersKept p r.
Proof.
  unfold votersKept. generalize (options p) (options q) (options r).
  intros a b c Hab. revert c.
  induction Hab as [| x y a b [Ht [m Hm]] Hab IH]; intros c Hbc;
    inversion Hbc as [| ? z ? c' [Ht' [m' Hm']] Hbc']; subst; constructor.
  - split; [congruence |]. exists (m ++ m')%list. rewrite Hm', Hm.
    now rewrite app_assoc.
  - now apply IH.
Qed.

Lemma votersKept_addVoter (uid : string) (n : nat) (opts : list PollOption) :
  Forall2 (fun o o' => text o' = text o /\
                       exists more, voters o' = (voters o ++ more)%list)
          opts (updateNth n (addVoter uid) opts).
Proof.
  revert n. induction opts as [| o rest IH]; intros [| n]; simpl;
    constructor.
  - split; [reflexivity |]. now exists [uid].
  - apply votersKept_refl_options.
  - split; [reflexivity |]. exists []. now rewrite app_nil_r.
  - apply IH.
Qed.

Lemma mutation_votersKept (p p' : Post) : mutation p p' -> votersKept p p'.
Proof.
  intros []; unfold votersKept; simpl;
    first [apply votersKept_addVoter | apply votersKept_refl_options].
Qed.

Lemma hasVoted_spec (p : Post) (uid : string) :
  hasVoted p uid = true <-> votedAnyOption p uid.
Proof.
  unfold hasVoted, votedAnyOption. rewrite existsb_exists.
  split; intros [opt [Hin Hv]]; exists opt; split; try exact Hin;
    now apply includes_In.
Qed.

Lemma votersKept_hasVoted (p p' : Post) (uid : string) :
  votersKept p p' -> hasVoted p uid = true -> hasVoted p' uid = true.
Proof.
  intros Hk Hv. apply hasVoted_spec in Hv. apply hasVoted_spec.
  destruct Hv as [opt [Hin Hu]].
  unfold votersKept in Hk. unfold votedAnyOption.
  induction Hk as [| o o' a b [_ [m Hm]] Hk IH]; [destruct Hin |].
  destruct Hin as [-> | Hin].
  - exists o'. split; [now left |]. rewrite Hm. apply in_or_app. now left.
  - destruct (IH Hin) as [opt' [Hin' Hu']]. exists opt'. split;
      [now right | exact Hu'].
Qed.

Lemma addVote_hasVoted (p : Post) (n : nat) (o : PollOption) (uid : string) :
  nth_error (options p) n = Some o -> hasVoted (addVote p n uid) uid = true.
Proof.
  intros Hn. apply hasVoted_spec. unfold votedAnyOption. simpl.
  revert n Hn. induction (options p) as [| x rest IH]; intros [| n]; simpl;
    try discriminate.
  - intros _. exists (addVoter uid x). split; [now left |].
    simpl. unfold push. apply in_or_app. right. now left.
  - intros Hn. destruct (IH n Hn) as [opt [Hin Hu]].
    exists opt. split; [now right | exact Hu].
Qed.

(** ** Handlers as store steps *)

Lemma storeStep_save (ps : list Post) (id : ObjectId) (p p' : Post) :
  findById id ps = Some p -> mutation p p' -> storeStep ps (savePost p' ps).
Proof.
  intros Hf Hm. right. exists id, p, p'. repeat split; assumption.
Qed.

Lemma Server_vote_store (id : ObjectId) (i : Z) (uid : string) (db : Db) :
  storeStep (posts db) (posts (snd (Server.vote id i uid db))).
Proof.
  unfold Server.vote.
  destruct (findById id (posts db)) as [post |] eqn:Hf; [| now left].
  destruct (hasVoted post uid) eqn:Hv; [now left |].
  destruct (at_index (options post) i) as [o |] eqn:Hi; [| now left].
  simpl. apply storeStep_save with id post; [exact Hf |].
  apply mut_vote with o; [now apply at_index_nth | exact Hv].
Qed.

Lemma Server_like_store (id : ObjectId) (uid : string) (db : Db) :
  storeStep (posts db) (posts (snd (Server.like id uid db))).
Proof.
  unfold Server.like.
  destruct (findById id (posts db)) as [post |] eqn:Hf; [| now left].
  simpl. apply storeStep_save with id post; [exact Hf |].
  destruct (includes uid (likes post)) eqn:Hl;
    [now apply mut_unlike_splice | now apply mut_like].
Qed.

Lemma Tracking_vote_store (now : Z) (id : ObjectId) (i : Z) (uid : string)
    (db : Db) :
  storeStep (posts db) (posts (snd (Tracking.vote now id i uid db))).
Proof.
  unfold Tracking.vote.
  destruct (String.eqb uid EmptyString); [now left |].
  destruct (findById id (posts db)) as [post |] eqn:Hf; [| now left].
  destruct (hasVoted post uid) eqn:Hv; [now left |].
  destruct (at_index (options post) i) as [o |] eqn:Hi; [| now left].
  simpl. apply storeStep_save with id post; [exact Hf |].
  apply mut_vote with o; [now apply at_index_nth | exact Hv].
Qed.

Lemma Tracking_like_store (now : Z) (id : ObjectId) (uid : string) (db : Db) :
  storeStep (posts db) (posts (snd (Tracking.like now id uid db))).
Proof.
  unfold Tracking.like.
  destruct (String.eqb uid EmptyString); [now left |].
  destruct (findById id (posts db)) as [post |] eqn:Hf; [| now left].
  destruct (includes uid (likes post)) eqn:Hl; simpl;
    apply storeStep_save with id post; try exact Hf;
    [now apply mut_unlike_filter | now apply mut_like].
Qed.

Lemma Tracking_share_store (now : Z) (id : ObjectId) (uid : string) (db : Db) :
  storeStep (posts db) (posts (snd (Tracking.share now id uid db))).
Proof.
  unfold Tracking.share.
  destruct (findById id (posts db)) as [post |] eqn:Hf; [| now left].
  simpl. apply storeStep_save with id post; [exact Hf | constructor].
Qed.

Lemma Tracking_getPost_store (now : Z) (id : ObjectId) (uid : string)
    (db : Db) :
  storeStep (posts db) (posts (snd (Tracking.getPost now id uid db))).
Proof.
  unfold Tracking.getPost.
  destruct (findById id (posts db)) as [post |] eqn:Hf; [| now left].
  simpl. apply storeStep_save with id post; [exact Hf | constructor].
Qed.

Lemma serverStep_store (db : Db) (r : Request) :
  storeStep (posts db) (posts (serverStep db r)).
Proof.
  destruct r; simpl;
    [apply Server_vote_store | apply Server_like_store
     | now left | now left].
Qed.

Lemma trackingStep_store (db : Db) (r : Z * Request) :
  storeStep (posts db) (posts (trackingStep db r)).
Proof.
  destruct r as [now []]; unfold trackingStep; simpl;
    [apply Tracking_vote_store | apply Tracking_like_store
     | apply Tracking_share_store | apply Tracking_getPost_store].
Qed.

Lemma storeStep_countersAgree (ps ps' : list Post) :
  storeStep ps ps' -> Forall countersAgree ps -> Forall countersAgree ps'.
Proof.
  intros [-> | [id [p [p' [Hf [Hm ->]]]]]] Hall; [exact Hall |].
  apply savePost_Forall; [exact Hall |].
  apply mutation_countersAgree with p; [| exact Hm].
  rewrite Forall_forall in Hall. apply Hall. eapply findById_In; eassumption.
Qed.

Lemma storeStep_votersKept (ps ps' : list Post) (x : ObjectId) (q : Post) :
  storeStep ps ps' -> findById x ps = Some q ->
  exists q', findById x ps' = Some q' /\ votersKept q q'.
Proof.
  intros [-> | [id [p [p' [Hf [Hm ->]]]]]] Hq.
  - exists q. split; [exact Hq | apply votersKept_refl].
  - assert (Hid : _id p' = id).
    { rewrite (mutation_id _ _ Hm). eapply findById_id; eassumption. }
    rewrite (findById_savePost id x ps p p' Hf Hid).
    destruct (Nat.eqb id x) eqn:He.
    + apply Nat.eqb_eq in He. subst x.
      assert (q = p) by congruence. subst q.
      exists p'. split; [reflexivity | now apply mutation_votersKept].
    + exists q. split; [exact Hq | apply votersKept_refl].
Qed.

Section Runs.
Context {Req : Type}.
Variable step : Db -> Req -> Db.
Hypothesis step_store : forall db r, storeStep (posts db) (posts (step db r)).

Lemma run_countersAgree (reqs : list Req) (db : Db) :
  Forall countersAgree (posts db) ->
  Forall countersAgree (posts (fold_left step reqs db)).
Proof.
  revert db. induction reqs as [| r rest IH]; intros db Hall; simpl.
  - exact Hall.
  - apply IH. eapply storeStep_countersAgree; [apply step_store | exact Hall].
Qed.

Lemma run_votersKept (reqs : list Req) (db : Db) (x : ObjectId) (q : Post) :
  findById x (posts db) = Some q ->
  exists q', findById x (posts (fold_left step reqs db)) = Some q' /\
             votersKept q q'.
Proof.
  revert db q. induction reqs as [| r rest IH]; intros db q Hq; simpl.
  - exists q. split; [exact Hq | apply votersKept_refl].
  - destruct (storeStep_votersKept _ _ x q (step_store db r) Hq)
      as [q1 [Hq1 Hk1]].
    destruct (IH (step db r) q1 Hq1) as [q' [Hq' Hk']].
    exists q'. split; [exact Hq' |].
    eapply votersKept_trans; eassumption.
Qed.
End Runs.

(** ** Counter invariants *)

Lemma newPost_countersAgree (id : ObjectId) (creator name ttl : string)
    (opts tgs : list string) (now : Z) :
  countersAgree (newPost id creator name ttl opts tgs now).
Proof.
  unfold countersAgree, newPost; simpl. repeat split.
  - induction opts as [| o rest IH]; simpl; [reflexivity | lia].
  - constructor.
Qed.

(** C3: a post as the creation handler builds it has [totalVotes] equal to
    the sum of the option vote counts and [likesCount] equal to the size of
    the duplicate free [likes]; and in a store whose posts have both, every
    post has both after every request of every sequence of vote, like and
    unlike requests, in both services. *)
Theorem counters_agree_after_requests :
  (forall (id : ObjectId) (creator name ttl : string)
          (opts tgs : list string) (now : Z),
      countersAgree (newPost id creator name ttl opts tgs now)) /\
  (forall db : Db,
      Forall countersAgree (posts db) ->
      (forall (reqs : list Request) (n : nat),
          Forall countersAgree (posts (runServer (firstn n reqs) db))) /\
      (forall (reqs : list (Z * Request)) (n : nat),
          Forall countersAgree (posts (runTracking (firstn n reqs) db)))).
Proof.
  split; [apply newPost_countersAgree |].
  intros db Hall. split; intros reqs n.
  - apply run_countersAgree; [apply serverStep_store | exact Hall].
  - apply run_countersAgree; [apply trackingStep_store | exact Hall].
Qed.

Lemma counters_agree_after_requests_witness :
  Forall countersAgree (posts twoPosts) /\
  Forall countersAgree
    (posts (runServer [ReqVote 1 1 "u1"; ReqLike 1 "u1"; ReqLike 1 "u1"]
                      twoPosts)) /\
  Forall countersAgree
    (posts (runTracking [(5, ReqVote 1 1 "u1"); (6, ReqLike 1 "u1");
                         (7, ReqLike 1 "u1")]
                        twoPosts)).
Proof.
  split; [repeat constructor |].
  split.
  - apply (proj1 (proj2 counters_agree_after_requests twoPosts
                    ltac:(repeat constructor))
                 [ReqVote 1 1 "u1"; ReqLike 1 "u1"; ReqLike 1 "u1"] 3%nat).
  - apply (proj2 (proj2 counters_agree_after_requests twoPosts
                    ltac:(repeat constructor))
                 [(5, ReqVote 1 1 "u1"); (6, ReqLike 1 "u1");
                  (7, ReqLike 1 "u1")] 3%nat).
Defined.

(** ** Voting once *)

Lemma Server_vote_rejects (id : ObjectId) (i : Z) (uid : string) (db : Db)
    (post : Post) :
  findById id (posts db) = Some post ->
  (fst (Server.vote id i uid db) = error 400 "Already voted"
   <-> hasVoted post uid = true).
Proof.
  intros Hf. unfold Server.vote. rewrite Hf.
  destruct (hasVoted post uid); [now split |].
  destruct (at_index (options post) i); simpl; split; discriminate.
Qed.

Lemma Tracking_vote_rejects (now : Z) (id : ObjectId) (i : Z) (uid : string)
    (db : Db) (post : Post) :
  findById id (posts db) = Some post -> uid <> EmptyString ->
  (fst (Tracking.vote now id i uid db) = error 400 "Already voted"
   <-> hasVoted post uid = true).
Proof.
  intros Hf Hne. unfold Tracking.vote.
  destruct (String.eqb uid EmptyString) eqn:He;
    [apply String.eqb_eq in He; contradiction |].
  rewrite Hf.
  destruct (hasVoted post uid); [now split |].
  destruct (at_index (options post) i); simpl; split; discriminate.
Qed.

Lemma Server_vote_ok (id : ObjectId) (i : Z) (uid msg : string) (db : Db)
    (body : Post) :
  fst (Server.vote id i uid db) = ok msg body ->
  findById id (posts (snd (Server.vote id i uid db))) = Some body /\
  hasVoted body uid = true.
Proof.
  unfold Server.vote.
  destruct (findById id (posts db)) as [post |] eqn:Hf; [| discriminate].
  destruct (hasVoted post uid); [discriminate |].
  destruct (at_index (options post) i) as [o |] eqn:Hi; [| discriminate].
  simpl. intros [= _ <-]. split.
  - rewrite (findById_savePost id id (posts db) post) by
      (first [exact Hf | simpl; eapply findById_id; eassumption]).
    now rewrite Nat.eqb_refl.
  - apply addVote_hasVoted with o. now apply at_index_nth.
Qed.

Lemma Tracking_vote_ok (now : Z) (id : ObjectId) (i : Z) (uid msg : string)
    (db : Db) (body : Post) :
  fst (Tracking.vote now id i uid db) = ok msg body ->
  findById id (posts (snd (Tracking.vote now id i uid db))) = Some body /\
  hasVoted body uid = true.
Proof.
  unfold Tracking.vote.
  destruct (String.eqb uid EmptyString); [discriminate |].
  destruct (findById id (posts db)) as [post |] eqn:Hf; [| discriminate].
  destruct (hasVoted post uid); [discriminate |].
  destruct (at_index (options post) i) as [o |] eqn:Hi; [| discriminate].
  simpl. intros [= _ <-]. split.
  - rewrite (findById_savePost id id (posts db) post) by
      (first [exact Hf | simpl; eapply findById_id; eassumption]).
    now rewrite Nat.eqb_refl.
  - apply addVote_hasVoted with o. now apply at_index_nth.
Qed.

(** C4: a vote on an existing post is answered "Already voted" exactly
    when the user identifier is among the voters of some option of the
    post; after a successful vote every later vote of that user on that
    post is answered "Already voted", whatever requests came in between;
    and no sequence of requests removes or moves a recorded voter. *)
Theorem vote_once_per_post :
  forall (db : Db) (now : Z) (id : ObjectId) (i : Z) (uid : string)
         (post : Post),
    findById id (posts db) = Some post ->
    uid <> EmptyString ->
    (fst (Server.vote id i uid db) = error 400 "Already voted"
     <-> votedAnyOption post uid) /\
    (fst (Tracking.vote now id i uid db) = error 400 "Already voted"
     <-> votedAnyOption post uid) /\
    (forall (msg : string) (body : Post) (reqs : list Request) (i' : Z),
        fst (Server.vote id i uid db) = ok msg body ->
        fst (Server.vote id i' uid
               (runServer reqs (snd (Server.vote id i uid db))))
        = error 400 "Already voted") /\
    (forall (msg : string) (body : Post) (reqs : list (Z * Request))
            (now' i' : Z),
        fst (Tracking.vote now id i uid db) = ok msg body ->
        fst (Tracking.vote now' id i' uid
               (runTracking reqs (snd (Tracking.vote now id i uid db))))
        = error 400 "Already voted") /\
    (forall reqs : list Request,
        exists post',
          findById id (posts (runServer reqs db)) = Some post' /\
          votersKept post post') /\
    (forall reqs : list (Z * Request),
        exists post',
          findById id (posts (runTracking reqs db)) = Some post' /\
          votersKept post post').
Proof.
  intros db now id i uid post Hf Hne.
  split; [| split; [| split; [| split; [| split]]]].
  - rewrite <- hasVoted_spec. now apply Server_vote_rejects.
  - rewrite <- hasVoted_spec. now apply Tracking_vote_rejects.
  - intros msg body reqs i' Hok.
    apply Server_vote_ok in Hok. destruct Hok as [Hbody Hvoted].
    destruct (run_votersKept serverStep serverStep_store reqs _ id body Hbody)
      as [post' [Hf' Hk]].
    apply (Server_vote_rejects id i' uid _ post' Hf').
    eapply votersKept_hasVoted; eassumption.
  - intros msg body reqs now' i' Hok.
    apply Tracking_vote_ok in Hok. destruct Hok as [Hbody Hvoted].
    destruct (run_votersKept trackingStep trackingStep_store reqs _ id body
                             Hbody) as [post' [Hf' Hk]].
    apply (Tracking_vote_rejects now' id i' uid _ post' Hf' Hne).
    eapply votersKept_hasVoted; eassumption.
  - intros reqs.
    apply (run_votersKept serverStep serverStep_store reqs db id post Hf).
  - intros reqs.
    apply (run_votersKept trackingStep trackingStep_store reqs db id post Hf).
Qed.

Lemma vote_once_per_post_witness :
  findById 1 (posts twoPosts) = Some postA /\
  "u1" <> EmptyString /\
  fst (Tracking.vote 5 1 1 "u1" twoPosts)
  = ok "Vote recorded" (addVote postA 1 "u1") /\
  fst (Tracking.vote 9 1 0 "u1"
         (runTracking [(6, ReqLike 1 "u1"); (7, ReqVote 1 0 "u3")]
                      (snd (Tracking.vote 5 1 1 "u1" twoPosts))))
  = error 400 "Already voted".
Proof.
  split; [reflexivity |]. split; [discriminate |]. split; [reflexivity |].
  destruct (vote_once_per_post twoPosts 5 1 1 "u1" postA)
    as [_ [_ [_ [H _]]]]; [reflexivity | discriminate |].
  apply (H "Vote recorded" (addVote postA 1 "u1")). reflexivity.
Defined.

(** ** Trending job *)




Section Job.
Variable unavailable : ObjectId -> bool.
Variable now : Z.


End Job.





(** ** Users *)

Lemma findOne_userId (uid : string) (us : list User) (u : User) :
  findOne uid us = Some u -> userId u = uid.
Proof.
  induction us as [| v rest IH]; simpl; [discriminate |].
  destruct (String.eqb (userId v) uid) eqn:He.
  - intros [= <-]. now apply String.eqb_eq.
  - exact IH.
Qed.

Lemma findOne_saveUser (uid x : string) (us : list User) (u u' : User) :
  findOne uid us = Some u -> userId u' = uid ->
  findOne x (saveUser u' us)
  = if String.eqb uid x then Some u' else findOne x us.
Proof.
  intros Hf Hid. induction us as [| v rest IH]; simpl in *; [discriminate |].
  rewrite Hid.
  destruct (String.eqb (userId v) uid) eqn:He.
  - apply String.eqb_eq in He. simpl. rewrite Hid, He.
    destruct (String.eqb uid x); reflexivity.
  - simpl. destruct (String.eqb (userId v) x) eqn:Hx.
    + apply String.eqb_eq in Hx. subst x. rewrite String.eqb_sym, He.
      reflexivity.
    + now apply IH.
Qed.

Lemma findOne_push (uid : string) (us : list User) (u : User) :
  findOne uid us = None -> userId u = uid ->
  findOne uid (push us u) = Some u.
Proof.
  intros Hn Hid. unfold push.
  induction us as [| v rest IH]; simpl in *.
  - rewrite Hid, String.eqb_refl. reflexivity.
  - destruct (String.eqb (userId v) uid); [discriminate | now apply IH].
Qed.

Lemma withUser_appended (uid : string) (record : Interaction)
    (f : User -> User) (ps ps' : list Post) (us : list User) (user : User) :
  findOne uid us = Some user ->
  userId (f user) = userId user ->
  interactions (f user) = push (interactions user) record ->
  appended uid record (mkDb ps us) (mkDb ps' (Tracking.withUser uid f us)).
Proof.
  intros Hf Hid Hlog. exists user, (f user). simpl.
  assert (Hu : userId (f user) = uid)
    by (rewrite Hid; eapply findOne_userId; eassumption).
  split; [exact Hf |].
  unfold Tracking.withUser. rewrite Hf.
  split; [| split; [exact Hlog |]].
  - rewrite (findOne_saveUser uid uid us user (f user) Hf Hu).
    now rewrite String.eqb_refl.
  - intros other Hne.
    rewrite (findOne_saveUser uid other us user (f user) Hf Hu).
    destruct (String.eqb uid other) eqn:He; [| reflexivity].
    apply String.eqb_eq in He. congruence.
Qed.

Lemma addInterests_interactions (tgs : list string) (u : User) :
  interactions (Tracking.addInterests tgs u) = interactions u /\
  userId (Tracking.addInterests tgs u) = userId u.
Proof. split; reflexivity. Qed.

Lemma findById_saved (id : ObjectId) (ps : list Post) (p p' : Post) :
  findById id ps = Some p -> _id p' = _id p ->
  findById id (savePost p' ps) = Some p'.
Proof.
  intros Hf Hid.
  rewrite (findById_savePost id id ps p p' Hf)
    by (rewrite Hid; eapply findById_id; eassumption).
  now rewrite Nat.eqb_refl.
Qed.

(** ** Interaction records *)

(** C9 as the code has it: in the tracking service, for an acting user
    with a user record, a successful vote, a share, a view and a like that
    turns the like on each save the mutated post and append exactly one
    record (post, kind, now) to that user's log, leaving other users as
    they were; a like that turns the like off leaves the users as they
    were. In src/server.js the vote and like handlers leave the users as
    they were. *)
Theorem tracking_appends_one_interaction :
  forall (db : Db) (now : Z) (id : ObjectId) (i : Z) (uid : string)
         (user : User) (post : Post),
    findById id (posts db) = Some post ->
    findOne uid (users db) = Some user ->
    uid <> EmptyString ->
    (forall (msg : string) (body : Post),
        fst (Tracking.vote now id i uid db) = ok msg body ->
        findById id (posts (snd (Tracking.vote now id i uid db))) = Some body /\
        totalVotes body = totalVotes post + 1 /\
        appended uid (mkInteraction id Vote now) db
                 (snd (Tracking.vote now id i uid db))) /\
    (findById id (posts (snd (Tracking.share now id uid db)))
     = Some (addShare post) /\
     appended uid (mkInteraction id Share now) db
              (snd (Tracking.share now id uid db))) /\
    (findById id (posts (snd (Tracking.getPost now id uid db)))
     = Some (addView post) /\
     appended uid (mkInteraction id View now) db
              (snd (Tracking.getPost now id uid db))) /\
    (includes uid (likes post) = false ->
     findById id (posts (snd (Tracking.like now id uid db)))
     = Some (setLikes post (push (likes post) uid) (likesCount post + 1)) /\
     appended uid (mkInteraction id Like now) db
              (snd (Tracking.like now id uid db))) /\
    (includes uid (likes post) = true ->
     findById id (posts (snd (Tracking.like now id uid db)))
     = Some (setLikes post (filterOut uid (likes post)) (likesCount post - 1))
     /\ users (snd (Tracking.like now id uid db)) = users db) /\
    users (snd (Server.vote id i uid db)) = users db /\
    users (snd (Server.like id uid db)) = users db.
Proof.
  intros db now id i uid user post Hp Hu Hne.
  assert (He : String.eqb uid EmptyString = false).
  { destruct (String.eqb uid EmptyString) eqn:He; [| reflexivity].
    apply String.eqb_eq in He. contradiction. }
  assert (Hid : _id post = id) by (eapply findById_id; eassumption).
  destruct db as [ps us]. simpl in Hp, Hu.
  split; [| split; [| split; [| split; [| split; [| split]]]]].
  - intros msg body. unfold Tracking.vote. simpl. rewrite He, Hp.
    destruct (hasVoted post uid); [discriminate |].
    destruct (at_index (options post) i) as [o |] eqn:Hi; [| discriminate].
    simpl. intros [= _ <-].
    split; [now apply findById_saved with post |].
    split; [reflexivity |].
    rewrite Hid. now apply withUser_appended with user.
  - unfold Tracking.share. simpl. rewrite Hp. simpl.
    split; [now apply findById_saved with post |].
    unfold Tracking.withOptionalUser. rewrite He, Hid.
    now apply withUser_appended with user.
  - unfold Tracking.getPost. simpl. rewrite Hp. simpl.
    split; [now apply findById_saved with post |].
    unfold Tracking.withOptionalUser. rewrite He, Hid.
    now apply withUser_appended with user.
  - intros Hl. unfold Tracking.like. simpl. rewrite He, Hp, Hl. simpl.
    split; [now apply findById_saved with post |].
    rewrite Hid. now apply withUser_appended with user.
  - intros Hl. unfold Tracking.like. simpl. rewrite He, Hp, Hl. simpl.
    split; [now apply findById_saved with post | reflexivity].
  - unfold Server.vote. simpl. rewrite Hp.
    destruct (hasVoted post uid); [reflexivity |].
    destruct (at_index (options post) i); reflexivity.
  - unfold Server.like. simpl. rewrite Hp. reflexivity.
Qed.

Lemma tracking_appends_one_interaction_witness :
  findById 7 (posts sportsDb) = Some sportsPost /\
  findOne "u1" (users sportsDb) = Some sportsFan /\
  "u1" <> EmptyString /\
  appended "u1" (mkInteraction 7 Share 42) sportsDb
           (snd (Tracking.share 42 7 "u1" sportsDb)).
Proof.
  split; [reflexivity |]. split; [reflexivity |]. split; [discriminate |].
  destruct (tracking_appends_one_interaction sportsDb 42 7 0 "u1" sportsFan
              sportsPost) as [_ [[_ H] _]];
    [reflexivity | reflexivity | discriminate | exact H].
Defined.

(** C9 as stated fails in src/server.js: a like that turns the like on,
    by a user with a user record, succeeds and counts, and the user's
    interaction log is as empty as before. *)
Lemma server_like_appends_nothing :
  findOne "u1" (users sportsDb) = Some sportsFan /\
  includes "u1" (likes sportsPost) = false /\
  fst (Server.like 7 "u1" sportsDb)
  = ok EmptyString (setLikes sportsPost ["u1"] 1) /\
  findOne "u1" (users (snd (Server.like 7 "u1" sportsDb))) = Some sportsFan /\
  interactions sportsFan = [].
Proof.
  repeat split.
Qed.

(** ** Requests of an identifier without a user record *)

Lemma fallback_complete (limit : nat) (ps : list Post) (p : Post) :
  In p ps -> (List.length ps <= limit)%nat ->
  In (plain p) (map plain (cursorWindow limit 0 (trendingOrder ps))).
Proof.
  intros Hin Hlen.
  pose proof (trendingOrder_perm ps) as Hperm.
  apply in_map.
  destruct limit as [| n]; simpl.
  - apply (Permutation_in _ (Permutation_sym Hperm)). exact Hin.
  - change (In p (window (S n) 0 (trendingOrder ps))).
    rewrite window_all by (rewrite (Permutation_length Hperm); exact Hlen).
    apply (Permutation_in _ (Permutation_sym Hperm)). exact Hin.
Qed.

Lemma unknown_eligible (uid : string) (id : ObjectId) (db : Db) (p : Post) :
  findOne uid (users db) = None ->
  findById id (posts db) = Some p ->
  eligibleFor uid id db.
Proof.
  intros Hu Hp. split.
  - intros now limit Hlen.
    pose proof (findById_In _ _ _ Hp) as Hin.
    pose proof (findById_id _ _ _ Hp) as Hid.
    unfold Tracking.getPersonalizedFeed. rewrite Hu.
    eexists. exists (plain p).
    split; [reflexivity |]. split; [now apply fallback_complete | exact Hid].
  - intros name u p' Hfind _.
    unfold Tracking.createUser in Hfind.
    destruct (String.eqb uid EmptyString || String.eqb name EmptyString)%bool;
      [simpl in Hfind; congruence |].
    rewrite Hu in Hfind. simpl in Hfind.
    rewrite (findOne_push uid (users db) (mkUser uid name [] []) Hu eq_refl)
      in Hfind.
    injection Hfind as <-. split; reflexivity.
Qed.

Lemma savePost_length (p : Post) (ps : list Post) :
  List.length (savePost p ps) = List.length ps.
Proof.
  induction ps as [| q rest IH]; simpl; [reflexivity |].
  destruct (Nat.eqb (_id q) (_id p)); simpl; congruence.
Qed.

Lemma vote_body (post : Post) (i : Z) (o : PollOption) (uid : string) :
  at_index (options post) i = Some o ->
  hasVoted post uid = false ->
  let body := addVote post (Z.to_nat i) uid in
  nth_error (options body) (Z.to_nat i)
  = Some (mkOption (text o) (votes o + 1) (voters o ++ [uid])%list) /\
  (forall m, m <> Z.to_nat i ->
             nth_error (options body) m = nth_error (options post) m) /\
  List.length (options body) = List.length (options post).
Proof.
  intros Hi Hv body. apply at_index_nth in Hi. unfold body. simpl.
  assert (Hupd : forall (l : list PollOption) (n m : nat),
             nth_error (updateNth n (addVoter uid) l) m
             = if Nat.eqb m n then option_map (addVoter uid) (nth_error l m)
               else nth_error l m).
  { induction l as [| x rest IH]; intros [| n] [| m]; simpl;
      try reflexivity.
    - now destruct (Nat.eqb m n).
    - apply IH. }
  split; [| split].
  - rewrite Hupd, Nat.eqb_refl, Hi. reflexivity.
  - intros m Hm. rewrite Hupd. apply Nat.eqb_neq in Hm. now rewrite Hm.
  - clear Hi Hupd. generalize (Z.to_nat i).
    induction (options post) as [| x rest IH]; intros [| n]; simpl;
      try reflexivity.
    now rewrite IH.
Qed.

(** C10: when the acting identifier has no user record, a vote, a share
    and a view still answer with success and save the mutated post: the
    voted option with one more vote and the identifier as its last voter
    and [totalVotes] one higher, [shares] one higher, [views] one higher,
    every other field as it was. The users are left exactly as they were
    (no interaction record, no interest), so the post is still served to
    that identifier by the feed, and a later registration starts with an
    empty log that does not keep the post out. *)
Theorem unknown_user_is_not_tracked :
  forall (db : Db) (now : Z) (id : ObjectId) (i : Z) (uid : string)
         (post : Post) (o : PollOption),
    findById id (posts db) = Some post ->
    findOne uid (users db) = None ->
    (uid <> EmptyString -> hasVoted post uid = false ->
     at_index (options post) i = Some o ->
     exists body : Post,
       Tracking.vote now id i uid db
       = (ok "Vote recorded" body,
          mkDb (savePost body (posts db)) (users db)) /\
       body
       = mkPost (_id post) (creatorId post) (creatorName post) (title post)
                (options body) (totalVotes post + 1) (likes post)
                (likesCount post) (shares post) (views post) (tags post)
                (createdAt post) (engagementScore post) (trendingScore post)
       /\
       nth_error (options body) (Z.to_nat i)
       = Some (mkOption (text o) (votes o + 1) (voters o ++ [uid])%list) /\
       (forall m, m <> Z.to_nat i ->
                  nth_error (options body) m = nth_error (options post) m) /\
       List.length (options body) = List.length (options post) /\
       eligibleFor uid id (snd (Tracking.vote now id i uid db))) /\
    (exists body : Post,
        Tracking.share now id uid db
        = (ok "Share recorded" body,
           mkDb (savePost body (posts db)) (users db)) /\
        body
        = mkPost (_id post) (creatorId post) (creatorName post) (title post)
                 (options post) (totalVotes post) (likes post)
                 (likesCount post) (shares post + 1) (views post) (tags post)
                 (createdAt post) (engagementScore post) (trendingScore post)
        /\
        eligibleFor uid id (snd (Tracking.share now id uid db))) /\
    (exists body : Post,
        Tracking.getPost now id uid db
        = (ok EmptyString body,
           mkDb (savePost body (posts db)) (users db)) /\
        body
        = mkPost (_id post) (creatorId post) (creatorName post) (title post)
                 (options post) (totalVotes post) (likes post)
                 (likesCount post) (shares post) (views post + 1) (tags post)
                 (createdAt post) (engagementScore post) (trendingScore post)
        /\
        eligibleFor uid id (snd (Tracking.getPost now id uid db))).
Proof.
  intros db now id i uid post o Hp Hu.
  assert (Hwith : forall f, Tracking.withUser uid f (users db) = users db).
  { intros f. unfold Tracking.withUser. now rewrite Hu. }
  assert (Hopt : forall f,
             Tracking.withOptionalUser uid f (users db) = users db).
  { intros f. unfold Tracking.withOptionalUser.
    destruct (String.eqb uid EmptyString); [reflexivity | apply Hwith]. }
  split; [| split].
  - intros Hne Hv Hi.
    assert (Heq : Tracking.vote now id i uid db
                  = (ok "Vote recorded" (addVote post (Z.to_nat i) uid),
                     mkDb (savePost (addVote post (Z.to_nat i) uid) (posts db))
                          (users db))).
    { unfold Tracking.vote.
      destruct (String.eqb uid EmptyString) eqn:He;
        [apply String.eqb_eq in He; contradiction |].
      rewrite Hp, Hv, Hi. cbv zeta. now rewrite Hwith. }
    destruct (vote_body post i o uid Hi Hv) as [Hn [Hm Hlen]].
    exists (addVote post (Z.to_nat i) uid).
    split; [exact Heq |]. split; [reflexivity |].
    split; [exact Hn |]. split; [exact Hm |]. split; [exact Hlen |].
    rewrite Heq. simpl.
    apply unknown_eligible with (addVote post (Z.to_nat i) uid);
      [exact Hu | now apply findById_saved with post].
  - assert (Heq : Tracking.share now id uid db
                  = (ok "Share recorded" (addShare post),
                     mkDb (savePost (addShare post) (posts db)) (users db))).
    { unfold Tracking.share. rewrite Hp. cbv zeta. now rewrite Hopt. }
    exists (addShare post).
    split; [exact Heq |]. split; [reflexivity |].
    rewrite Heq. simpl.
    apply unknown_eligible with (addShare post);
      [exact Hu | now apply findById_saved with post].
  - assert (Heq : Tracking.getPost now id uid db
                  = (ok EmptyString (addView post),
                     mkDb (savePost (addView post) (posts db)) (users db))).
    { unfold Tracking.getPost. rewrite Hp. cbv zeta. now rewrite Hopt. }
    exists (addView post).
    split; [exact Heq |]. split; [reflexivity |].
    rewrite Heq. simpl.
    apply unknown_eligible with (addView post);
      [exact Hu | now apply findById_saved with post].
Qed.

Lemma unknown_user_is_not_tracked_witness :
  findById 7 (posts sportsDb) = Some sportsPost /\
  findOne "ghost" (users sportsDb) = None /\
  exists body : Post,
    Tracking.share 42 7 "ghost" sportsDb
    = (ok "Share recorded" body, mkDb [body] [sportsFan]) /\
    shares body = 1 /\
    eligibleFor "ghost" 7 (snd (Tracking.share 42 7 "ghost" sportsDb)).
Proof.
  split; [reflexivity |]. split; [reflexivity |].
  destruct (unknown_user_is_not_tracked sportsDb 42 7 0 "ghost" sportsPost
              (mkOption "yes" 0 [])) as [_ [[body [H1 [H2 H3]]] _]];
    [reflexivity | reflexivity |].
  exists body. split; [| split; [| exact H3]].
  - rewrite H1. subst body. reflexivity.
  - subst body. reflexivity.
Defined.

(** * The rest of the interface *)

(** ** Identifiers in the store *)

Lemma findById_None (id : ObjectId) (ps : list Post) :
  findById id ps = None <-> ~ In id (map _id ps).
Proof.
  induction ps as [| q rest IH]; simpl.
  - split; [intros _ [] | reflexivity].
  - destruct (Nat.eqb (_id q) id) eqn:He.
    + apply Nat.eqb_eq in He. split; [discriminate | intros H].
      exfalso. apply H. now left.
    + apply Nat.eqb_neq in He. rewrite IH. tauto.
Qed.

Lemma findOne_None (uid : string) (us : list User) :
  findOne uid us = None <-> ~ In uid (map userId us).
Proof.
  induction us as [| v rest IH]; simpl.
  - split; [intros _ [] | reflexivity].
  - destruct (String.eqb (userId v) uid) eqn:He.
    + apply String.eqb_eq in He. split; [discriminate | intros H].
      exfalso. apply H. now left.
    + apply String.eqb_neq in He. rewrite IH. tauto.
Qed.

Lemma findOne_In (uid : string) (us : list User) (u : User) :
  findOne uid us = Some u -> In u us.
Proof.
  induction us as [| v rest IH]; simpl; [discriminate |].
  destruct (String.eqb (userId v) uid).
  - intros [= <-]. now left.
  - intros H. right. now apply IH.
Qed.

Lemma savePost_ids (p' : Post) (ps : list Post) :
  map _id (savePost p' ps) = map _id ps.
Proof.
  induction ps as [| q rest IH]; simpl; [reflexivity |].
  destruct (Nat.eqb (_id q) (_id p')) eqn:He; simpl.
  - apply Nat.eqb_eq in He. now rewrite He.
  - now rewrite IH.
Qed.

Lemma saveUser_ids (u' : User) (us : list User) :
  map userId (saveUser u' us) = map userId us.
Proof.
  induction us as [| v rest IH]; simpl; [reflexivity |].
  destruct (String.eqb (userId v) (userId u')) eqn:He; simpl.
  - apply String.eqb_eq in He. now rewrite He.
  - now rewrite IH.
Qed.

Lemma saveUser_Forall (P : User -> Prop) (u' : User) (us : list User) :
  Forall P us -> P u' -> Forall P (saveUser u' us).
Proof.
  intros Hall Hu. induction Hall as [| v rest Hv Hrest IH]; simpl.
  - constructor.
  - destruct (String.eqb (userId v) (userId u')); constructor; assumption.
Qed.

Lemma findByIdAndDelete_incl (id : ObjectId) (ps : list Post) (p : Post) :
  In p (findByIdAndDelete id ps) -> In p ps.
Proof.
  induction ps as [| q rest IH]; simpl; [tauto |].
  destruct (Nat.eqb (_id q) id); simpl; [tauto |].
  intros [H | H]; [now left | right; now apply IH].
Qed.

Lemma findByIdAndDelete_ids (id : ObjectId) (ps : list Post) :
  NoDup (map _id ps) -> NoDup (map _id (findByIdAndDelete id ps)).
Proof.
  induction ps as [| q rest IH]; simpl; [trivial |].
  intros Hnd. inversion Hnd as [| ? ? Hq Hrest]; subst.
  destruct (Nat.eqb (_id q) id); simpl; [exact Hrest |].
  constructor; [| now apply IH].
  intros Hin. apply Hq. apply in_map_iff in Hin.
  destruct Hin as [x [Hx Hin]]. apply in_map_iff. exists x.
  split; [exact Hx | eapply findByIdAndDelete_incl; eassumption].
Qed.

Lemma findByIdAndDelete_gone (id : ObjectId) (ps : list Post) :
  NoDup (map _id ps) -> findById id (findByIdAndDelete id ps) = None.
Proof.
  induction ps as [| q rest IH]; simpl; [reflexivity |].
  intros Hnd. inversion Hnd as [| ? ? Hq Hrest]; subst.
  destruct (Nat.eqb (_id q) id) eqn:He; simpl.
  - apply Nat.eqb_eq in He. subst id. now apply findById_None.
  - rewrite He. now apply IH.
Qed.

Lemma findByIdAndDelete_other (id x : ObjectId) (ps : list Post) :
  x <> id -> findById x (findByIdAndDelete id ps) = findById x ps.
Proof.
  intros Hne. induction ps as [| q rest IH]; simpl; [reflexivity |].
  destruct (Nat.eqb (_id q) id) eqn:He; simpl.
  - apply Nat.eqb_eq in He.
    destruct (Nat.eqb (_id q) x) eqn:Hx; [| reflexivity].
    apply Nat.eqb_eq in Hx. congruence.
  - destruct (Nat.eqb (_id q) x); [reflexivity | exact IH].
Qed.

Lemma insertPost_Some (p : Post) (ps ps' : list Post) :
  insertPost p ps = Some ps' ->
  validates p = true /\ findById (_id p) ps = None /\ ps' = push ps p.
Proof.
  unfold insertPost.
  destruct (validates p); [| discriminate].
  destruct (findById (_id p) ps); [discriminate |].
  intros [= <-]. repeat split.
Qed.

(** ** Voters of a post *)

Lemma hasVoted_allVoters (p : Post) (uid : string) :
  hasVoted p uid = true <-> In uid (allVoters p).
Proof.
  rewrite hasVoted_spec. unfold votedAnyOption, allVoters.
  rewrite in_concat. split.
  - intros [opt [Hin Hu]]. exists (voters opt). split; [| exact Hu].
    now apply in_map.
  - intros [l [Hl Hu]]. apply in_map_iff in Hl.
    destruct Hl as [opt [<- Hin]]. now exists opt.
Qed.

Lemma allVoters_addVoter (uid : string) (n : nat) (opts : list PollOption)
    (o : PollOption) :
  nth_error opts n = Some o ->
  Permutation (List.concat (map voters (updateNth n (addVoter uid) opts)))
              (uid :: List.concat (map voters opts)).
Proof.
  revert n. induction opts as [| x rest IH]; intros [| n]; simpl;
    try discriminate.
  - intros _. unfold push. rewrite <- app_assoc. simpl.
    apply Permutation_sym, Permutation_middle.
  - intros Hn.
    apply perm_trans with (voters x ++ uid :: List.concat (map voters rest))%list.
    + apply Permutation_app_head. now apply IH.
    + apply Permutation_sym, Permutation_middle.
Qed.

Lemma Forall_updateNth {A : Type} (P : A -> Prop) (f : A -> A) (n : nat)
    (l : list A) :
  (forall x, P x -> P (f x)) -> Forall P l -> Forall P (updateNth n f l).
Proof.
  intros Hf Hall. revert n.
  induction Hall as [| x rest Hx Hrest IH]; intros [| n]; simpl;
    constructor; auto.
Qed.

Lemma mutation_votersAgree (p p' : Post) :
  votersAgree p -> mutation p p' -> votersAgree p'.
Proof.
  intros [Hcount Hnd] Hm.
  destruct Hm as [n o uid Hn Hv | uid Hi | uid Hi | uid Hi | |];
    try (split; assumption).
  split.
  - simpl. apply Forall_updateNth; [| exact Hcount].
    intros x Hx. simpl. unfold push. rewrite length_app. simpl. lia.
  - unfold allVoters. simpl.
    apply (Permutation_NoDup
             (Permutation_sym (allVoters_addVoter uid n _ o Hn))).
    constructor; [| exact Hnd].
    intros Hin. apply hasVoted_allVoters in Hin. congruence.
Qed.

Lemma forallb_updateNth {A : Type} (t : A -> bool) (f : A -> A) (n : nat)
    (l : list A) :
  (forall x, t (f x) = t x) -> forallb t (updateNth n f l) = forallb t l.
Proof.
  intros Hf. revert n.
  induction l as [| x rest IH]; intros [| n]; simpl; try reflexivity.
  - now rewrite Hf.
  - now rewrite IH.
Qed.

Lemma mutation_validates (p p' : Post) :
  mutation p p' -> validates p' = validates p.
Proof.
  intros []; unfold validates; simpl; try reflexivity.
  f_equal. now apply forallb_updateNth.
Qed.

Lemma newPost_votersAgree (id : ObjectId) (creator name ttl : string)
    (opts tgs : list string) (now : Z) :
  votersAgree (newPost id creator name ttl opts tgs now).
Proof.
  unfold votersAgree, allVoters, newPost; simpl. split.
  - induction opts as [| o rest IH]; simpl; constructor; auto.
  - replace (List.concat (map voters (map (fun o => mkOption o 0 []) opts)))
      with (@nil string); [constructor |].
    induction opts as [| o rest IH]; simpl; [reflexivity | exact IH].
Qed.

(** ** Interests and interaction logs *)

Lemma mergeTags_spec (tgs acc : list string) :
  let merged := fold_left (fun acc tag => if includes tag acc then acc
                                          else push acc tag) tgs acc in
  (exists more, merged = (acc ++ more)%list) /\
  (NoDup acc -> NoDup merged) /\
  (forall t, In t tgs -> In t merged) /\
  (forall t, In t merged -> In t acc \/ In t tgs).
Proof.
  revert acc. induction tgs as [| tag rest IH]; intros acc; simpl.
  - repeat split; try tauto. exists []. now rewrite app_nil_r.
  - destruct (includes tag acc) eqn:Hi.
    + destruct (IH acc) as [[more Hm] [Hnd [Hin Hout]]].
      repeat split.
      * now exists more.
      * exact Hnd.
      * intros t [<- | Ht]; [| now apply Hin].
        rewrite Hm. apply in_or_app. left. now apply includes_In.
      * intros t Ht. destruct (Hout t Ht); tauto.
    + destruct (IH (push acc tag)) as [[more Hm] [Hnd [Hin Hout]]].
      repeat split.
      * exists (tag :: more). rewrite Hm. unfold push.
        now rewrite <- app_assoc.
      * intros Hacc. apply Hnd. apply push_NoDup; [exact Hacc |].
        now apply includes_false.
      * intros t [<- | Ht]; [| now apply Hin].
        rewrite Hm. apply in_or_app. left. unfold push.
        apply in_or_app. right. now left.
      * intros t Ht. destruct (Hout t Ht) as [H | H]; [| tauto].
        unfold push in H. apply in_app_or in H.
        destruct H as [H | [<- | []]]; tauto.
Qed.

Lemma userKept_refl (u : User) : userKept u u.
Proof.
  repeat split; exists []; now rewrite app_nil_r.
Qed.

Lemma userKept_trans (u v w : User) :
  userKept u v -> userKept v w -> userKept u w.
Proof.
  intros [Hi [Hn [[l Hl] [m Hm]]]] [Hi' [Hn' [[l' Hl'] [m' Hm']]]].
  repeat split; try congruence.
  - exists (l ++ l')%list. rewrite Hl', Hl. now rewrite app_assoc.
  - exists (m ++ m')%list. rewrite Hm', Hm. now rewrite app_assoc.
Qed.

Lemma pushInteraction_kept (now : Z) (pid : ObjectId)
    (kind : InteractionType) (u : User) :
  userKept u (Tracking.pushInteraction now pid kind u).
Proof.
  repeat split; simpl.
  - now exists [mkInteraction pid kind now].
  - exists []. now rewrite app_nil_r.
Qed.

Lemma addInterests_kept (tgs : list string) (u : User) :
  userKept u (Tracking.addInterests tgs u) /\
  (NoDup (interests u) -> NoDup (interests (Tracking.addInterests tgs u))).
Proof.
  destruct (mergeTags_spec tgs (interests u)) as [[more Hm] [Hnd _]].
  repeat split; simpl.
  - exists []. now rewrite app_nil_r.
  - now exists more.
  - exact Hnd.
Qed.

Lemma withUser_step (uid : string) (f : User -> User) (us : list User) :
  (forall u, userKept u (f u) /\
             (NoDup (interests u) -> NoDup (interests (f u)))) ->
  usersStep us (Tracking.withUser uid f us).
Proof.
  intros Hf. unfold Tracking.withUser.
  destruct (findOne uid us) as [user |] eqn:Hu; [| constructor].
  apply users_saved with uid user; [exact Hu | apply Hf ..].
Qed.

Lemma withOptionalUser_step (uid : string) (f : User -> User)
    (us : list User) :
  (forall u, userKept u (f u) /\
             (NoDup (interests u) -> NoDup (interests (f u)))) ->
  usersStep us (Tracking.withOptionalUser uid f us).
Proof.
  intros Hf. unfold Tracking.withOptionalUser.
  destruct (String.eqb uid EmptyString); [constructor |].
  now apply withUser_step.
Qed.

Lemma pushInteraction_step (now : Z) (pid : ObjectId)
    (kind : InteractionType) (u : User) :
  userKept u (Tracking.pushInteraction now pid kind u) /\
  (NoDup (interests u) ->
   NoDup (interests (Tracking.pushInteraction now pid kind u))).
Proof.
  split; [apply pushInteraction_kept | trivial].
Qed.

Lemma trackingStep_users (db : Db) (r : Z * Request) :
  usersStep (users db) (users (trackingStep db r)).
Proof.
  destruct r as [now [id i uid | id uid | id uid | id uid]];
    unfold trackingStep; simpl.
  - unfold Tracking.vote.
    destruct (String.eqb uid EmptyString); [constructor |].
    destruct (findById id (posts db)) as [post |]; [| constructor].
    destruct (hasVoted post uid); [constructor |].
    destruct (at_index (options post) i); [| constructor].
    simpl. apply withUser_step. intros u.
    destruct (addInterests_kept
                (tags post)
                (Tracking.pushInteraction now (_id post) Vote u))
      as [Hk Hnd].
    split; [| exact Hnd].
    eapply userKept_trans; [apply pushInteraction_kept | exact Hk].
  - unfold Tracking.like.
    destruct (String.eqb uid EmptyString); [constructor |].
    destruct (findById id (posts db)) as [post |]; [| constructor].
    destruct (includes uid (likes post)); simpl; [constructor |].
    apply withUser_step. intros u. apply pushInteraction_step.
  - unfold Tracking.share.
    destruct (findById id (posts db)) as [post |]; [| constructor].
    simpl. apply withOptionalUser_step. intros u. apply pushInteraction_step.
  - unfold Tracking.getPost.
    destruct (findById id (posts db)) as [post |]; [| constructor].
    simpl. apply withOptionalUser_step. intros u. apply pushInteraction_step.
Qed.

Lemma serverStep_users (db : Db) (r : Request) :
  users (serverStep db r) = users db.
Proof.
  destruct r as [id i uid | id uid | id uid | id uid]; simpl;
    try reflexivity.
  - unfold Server.vote.
    destruct (findById id (posts db)) as [post |]; [| reflexivity].
    destruct (hasVoted post uid); [reflexivity |].
    destruct (at_index (options post) i); reflexivity.
  - unfold Server.like.
    destruct (findById id (posts db)); reflexivity.
Qed.

(** ** Calls as steps of the posts and of the users *)

Lemma createUser_users (uid name : string) (db : Db) :
  usersStep (users db) (users (snd (Tracking.createUser uid name db))) /\
  usersStep (users db) (users (snd (Server.createUser uid name db))).
Proof.
  unfold Tracking.createUser, Server.createUser.
  destruct (String.eqb uid EmptyString) eqn:Hu; simpl;
    [split; constructor |].
  destruct (String.eqb name EmptyString) eqn:Hn; simpl;
    [split; constructor |].
  apply String.eqb_neq in Hu, Hn.
  destruct (findOne uid (users db)) eqn:Hf; simpl;
    [split; constructor |].
  split; now apply users_added.
Qed.

Lemma createPost_posts (now : Z) (newId : ObjectId)
    (creator name ttl : string) (opts tgs : option (list string)) (db : Db) :
  postsStep (posts db)
    (posts (snd (Tracking.createPost now newId creator name ttl opts tgs db)))
  /\
  postsStep (posts db)
    (posts (snd (Server.createPost now newId creator name ttl opts tgs db))).
Proof.
  assert (Hsame : postsStep (posts db) (posts db))
    by (apply posts_mutated; now left).
  unfold Tracking.createPost, Server.createPost.
  destruct opts as [os |]; [| split; exact Hsame].
  destruct (insertPost (newPost newId creator name ttl os (orEmpty tgs) now)
                       (posts db)) as [ps |] eqn:Hi.
  - assert (postsStep (posts db) ps) by (eapply posts_inserted; exact Hi).
    destruct (String.eqb creator EmptyString || String.eqb name EmptyString
              || String.eqb ttl EmptyString)%bool; simpl; split; assumption.
  - destruct (String.eqb creator EmptyString || String.eqb name EmptyString
              || String.eqb ttl EmptyString)%bool; simpl; split; assumption.
Qed.

Lemma deletePost_posts (id : ObjectId) (uid : option string) (db : Db) :
  postsStep (posts db) (posts (snd (Tracking.deletePost id uid db))).
Proof.
  assert (Hsame : postsStep (posts db) (posts db))
    by (apply posts_mutated; now left).
  unfold Tracking.deletePost.
  destruct (findById id (posts db)) as [post |]; [| exact Hsame].
  destruct uid as [u |]; [| exact Hsame].
  destruct (String.eqb (creatorId post) u); [| exact Hsame].
  simpl. apply posts_deleted.
Qed.

Lemma trackingCall_posts (db : Db) (c : Call) :
  postsStep (posts db) (posts (trackingCall db c)).
Proof.
  destruct c as [now r | uid name | now newId creator name ttl opts tgs
                 | id uid]; simpl.
  - apply posts_mutated. apply trackingStep_store.
  - apply posts_mutated. left. unfold Tracking.createUser.
    destruct (String.eqb uid EmptyString || String.eqb name EmptyString)%bool;
      [reflexivity |].
    destruct (findOne uid (users db)); reflexivity.
  - apply createPost_posts.
  - apply deletePost_posts.
Qed.

Lemma serverCall_posts (db : Db) (c : Call) :
  postsStep (posts db) (posts (serverCall db c)).
Proof.
  destruct c as [now r | uid name | now newId creator name ttl opts tgs
                 | id uid]; simpl.
  - apply posts_mutated. apply serverStep_store.
  - apply posts_mutated. left. unfold Server.createUser.
    destruct (String.eqb uid EmptyString || String.eqb name EmptyString)%bool;
      [reflexivity |].
    destruct (findOne uid (users db)); reflexivity.
  - apply createPost_posts.
  - apply posts_mutated. now left.
Qed.

Lemma trackingCall_users (db : Db) (c : Call) :
  usersStep (users db) (users (trackingCall db c)).
Proof.
  destruct c as [now r | uid name | now newId creator name ttl opts tgs
                 | id uid]; simpl.
  - apply trackingStep_users.
  - apply createUser_users.
  - unfold Tracking.createPost.
    destruct opts as [os |]; [| constructor].
    destruct (String.eqb creator EmptyString || String.eqb name EmptyString
              || String.eqb ttl EmptyString)%bool; [constructor |].
    destruct (insertPost _ (posts db)); constructor.
  - unfold Tracking.deletePost.
    destruct (findById id (posts db)) as [post |]; [| constructor].
    destruct uid as [u |]; [| constructor].
    destruct (String.eqb (creatorId post) u); constructor.
Qed.

Lemma serverCall_users (db : Db) (c : Call) :
  usersStep (users db) (users (serverCall db c)).
Proof.
  destruct c as [now r | uid name | now newId creator name ttl opts tgs
                 | id uid]; simpl.
  - rewrite serverStep_users. constructor.
  - apply createUser_users.
  - unfold Server.createPost.
    destruct opts as [os |]; [| constructor].
    destruct (insertPost _ (posts db)); constructor.
  - constructor.
Qed.

(** ** Well-formed stores *)

Lemma NoDup_snoc {A : Type} (l : list A) (x : A) :
  NoDup l -> ~ In x l -> NoDup (l ++ [x]).
Proof.
  intros Hnd Hx.
  apply (Permutation_NoDup (Permutation_cons_append l x)).
  now constructor.
Qed.

Lemma mutation_postOk (p p' : Post) : postOk p -> mutation p p' -> postOk p'.
Proof.
  intros [Hc [Hv Hval]] Hm. split; [| split].
  - now apply (mutation_countersAgree p p').
  - now apply (mutation_votersAgree p p').
  - now rewrite (mutation_validates p p' Hm).
Qed.

Lemma postsStep_wf (ps ps' : list Post) :
  postsStep ps ps' ->
  NoDup (map _id ps) -> Forall postOk ps ->
  NoDup (map _id ps') /\ Forall postOk ps'.
Proof.
  intros Hstep Hnd Hall.
  destruct Hstep as [ps' [-> | [id [p [p' [Hf [Hm ->]]]]]]
                    | id creator name ttl os tgs now ps' Hi | id].
  - now split.
  - split; [now rewrite savePost_ids |].
    apply savePost_Forall; [exact Hall |].
    apply mutation_postOk with p; [| exact Hm].
    rewrite Forall_forall in Hall. apply Hall.
    eapply findById_In; eassumption.
  - apply insertPost_Some in Hi. destruct Hi as [Hval [Hfresh ->]].
    unfold push. split.
    + rewrite map_app. simpl. apply NoDup_snoc; [exact Hnd |].
      now apply findById_None.
    + apply Forall_app. split; [exact Hall |].
      constructor; [| constructor].
      split; [apply newPost_countersAgree |].
      split; [apply newPost_votersAgree | exact Hval].
  - split; [now apply findByIdAndDelete_ids |].
    rewrite Forall_forall in *. intros p Hp. apply Hall.
    eapply findByIdAndDelete_incl; eassumption.
Qed.

Lemma usersStep_wf (us us' : list User) :
  usersStep us us' ->
  NoDup (map userId us) -> Forall userOk us ->
  NoDup (map userId us') /\ Forall userOk us'.
Proof.
  intros Hstep Hnd Hall.
  destruct Hstep as [| uid u u' Hf [Hid [Hname _]] Hint
                     | uid name Hf Hu Hn].
  - now split.
  - split; [now rewrite saveUser_ids |].
    apply saveUser_Forall; [exact Hall |].
    assert (Hu : userOk u).
    { rewrite Forall_forall in Hall. apply Hall.
      eapply findOne_In; eassumption. }
    destruct Hu as [H1 [H2 H3]].
    repeat split; [congruence | congruence | now apply Hint].
  - unfold push. split.
    + rewrite map_app. simpl. apply NoDup_snoc; [exact Hnd |].
      now apply findOne_None.
    + apply Forall_app. split; [exact Hall |].
      constructor; [| constructor].
      repeat split; simpl; [exact Hu | exact Hn | constructor].
Qed.

Section Calls.
Variable call : Db -> Call -> Db.
Hypothesis call_posts : forall db c, postsStep (posts db) (posts (call db c)).
Hypothesis call_users : forall db c, usersStep (users db) (users (call db c)).

Lemma call_wellFormed (db : Db) (c : Call) :
  wellFormed db -> wellFormed (call db c).
Proof.
  intros [Hp Hu Hps Hus].
  destruct (postsStep_wf _ _ (call_posts db c) Hp Hps) as [Hp' Hps'].
  destruct (usersStep_wf _ _ (call_users db c) Hu Hus) as [Hu' Hus'].
  now constructor.
Qed.

Lemma calls_wellFormed (calls : list Call) (db : Db) :
  wellFormed db -> wellFormed (fold_left call calls db).
Proof.
  revert db. induction calls as [| c rest IH]; intros db Hwf; simpl.
  - exact Hwf.
  - apply IH. now apply call_wellFormed.
Qed.
End Calls.

Lemma emptyDb_wellFormed : wellFormed emptyDb.
Proof.
  constructor; simpl; constructor.
Qed.

(** X1: whatever sequence of calls either service has served since the
    empty store, post identifiers and user identifiers are unique, every
    post has [totalVotes] equal to the sum of its option counts,
    [likesCount] equal to the size of the duplicate free [likes], every
    option counting its voters, nobody a voter twice, and the required
    fields non-empty; every user has a non-empty identifier and name and
    duplicate free interests. *)
Theorem reachable_store_wellFormed :
  forall calls : list Call,
    wellFormed (fold_left trackingCall calls emptyDb) /\
    wellFormed (fold_left serverCall calls emptyDb).
Proof.
  intros calls. split.
  - apply calls_wellFormed;
      [apply trackingCall_posts | apply trackingCall_users
       | apply emptyDb_wellFormed].
  - apply calls_wellFormed;
      [apply serverCall_posts | apply serverCall_users
       | apply emptyDb_wellFormed].
Qed.

(** ** Rejected requests *)

Ltac rejected :=
  repeat match goal with
         | |- context [if ?c then _ else _] => destruct c
         | |- context [match ?x with _ => _ end] => destruct x
         end;
  simpl; intros; first [reflexivity | discriminate].

(** X2: a request that a handler answers with an error (a missing or
    unauthorized identifier, an unknown post, a second vote, an option index
    outside the poll, a refused insert) leaves the whole store as it was. *)
Theorem rejected_requests_change_nothing :
  forall (db : Db) (now : Z) (id newId : ObjectId) (i : Z)
         (uid name creator ttl : string) (owner : option string)
         (opts tgs : option (list string)) (status : Z) (msg : string),
    (fst (Tracking.vote now id i uid db) = error status msg ->
     snd (Tracking.vote now id i uid db) = db) /\
    (fst (Tracking.like now id uid db) = error status msg ->
     snd (Tracking.like now id uid db) = db) /\
    (fst (Tracking.share now id uid db) = error status msg ->
     snd (Tracking.share now id uid db) = db) /\
    (fst (Tracking.getPost now id uid db) = error status msg ->
     snd (Tracking.getPost now id uid db) = db) /\
    (fst (Tracking.createUser uid name db) = error status msg ->
     snd (Tracking.createUser uid name db) = db) /\
    (fst (Tracking.createPost now newId creator name ttl opts tgs db)
     = error status msg ->
     snd (Tracking.createPost now newId creator name ttl opts tgs db) = db) /\
    (fst (Tracking.deletePost id owner db) = error status msg ->
     snd (Tracking.deletePost id owner db) = db) /\
    (fst (Server.vote id i uid db) = error status msg ->
     snd (Server.vote id i uid db) = db) /\
    (fst (Server.like id uid db) = error status msg ->
     snd (Server.like id uid db) = db) /\
    (fst (Server.createUser uid name db) = error status msg ->
     snd (Server.createUser uid name db) = db) /\
    (fst (Server.createPost now newId creator name ttl opts tgs db)
     = error status msg ->
     snd (Server.createPost now newId creator name ttl opts tgs db) = db).
Proof.
  intros.
  repeat split.
  - unfold Tracking.vote. rejected.
  - unfold Tracking.like. rejected.
  - unfold Tracking.share. rejected.
  - unfold Tracking.getPost. rejected.
  - unfold Tracking.createUser. rejected.
  - unfold Tracking.createPost. rejected.
  - unfold Tracking.deletePost. rejected.
  - unfold Server.vote. rejected.
  - unfold Server.like. rejected.
  - unfold Server.createUser. rejected.
  - unfold Server.createPost. rejected.
Qed.

Lemma rejected_requests_change_nothing_witness :
  fst (Tracking.vote 5 1 2 "u1" twoPosts) = error 500 "TypeError" /\
  snd (Tracking.vote 5 1 2 "u1" twoPosts) = twoPosts.
Proof.
  split; [reflexivity |].
  apply (rejected_requests_change_nothing twoPosts 5 1 0 2 "u1" "n" "c" "t"
           None None None 500 "TypeError").
  reflexivity.
Defined.

(** ** What a vote writes *)

Lemma updateNth_nth {A : Type} (f : A -> A) (n m : nat) (l : list A) :
  nth_error (updateNth n f l) m
  = if Nat.eqb m n then option_map f (nth_error l m) else nth_error l m.
Proof.
  revert n m. induction l as [| x rest IH]; intros [| n] [| m]; simpl;
    try reflexivity.
  - now destruct (Nat.eqb m n).
  - apply IH.
Qed.

Lemma updateNth_length {A : Type} (f : A -> A) (n : nat) (l : list A) :
  List.length (updateNth n f l) = List.length l.
Proof.
  revert n. induction l as [| x rest IH]; intros [| n]; simpl;
    try reflexivity.
  now rewrite IH.
Qed.

Lemma at_index_nat {A : Type} (arr : list A) (i : Z) (x : A) :
  at_index arr i = Some x ->
  i = Z.of_nat (Z.to_nat i) /\ (Z.to_nat i < List.length arr)%nat.
Proof.
  unfold at_index. destruct (i <? 0) eqn:Hi; [discriminate |].
  apply Z.ltb_ge in Hi. intros Hn. split; [lia |].
  apply nth_error_Some. congruence.
Qed.

Lemma addVote_votedOn (post : Post) (i : Z) (o : PollOption) (uid : string) :
  at_index (options post) i = Some o ->
  hasVoted post uid = false ->
  votedOn post (addVote post (Z.to_nat i) uid) i uid.
Proof.
  intros Hi Hv.
  destruct (at_index_nat _ _ _ Hi) as [Hz _].
  apply at_index_nth in Hi.
  exists (Z.to_nat i), o. simpl.
  split; [exact Hz |]. split; [exact Hi |]. split; [exact Hv |].
  split; [| split; [| split]].
  - rewrite updateNth_nth, Nat.eqb_refl, Hi. reflexivity.
  - intros m Hm. rewrite updateNth_nth.
    apply Nat.eqb_neq in Hm. now rewrite Hm.
  - apply updateNth_length.
  - repeat split.
Qed.

Lemma savePost_replaced (id : ObjectId) (post body : Post) (ps : list Post) :
  findById id ps = Some post -> _id body = _id post ->
  replaced id body ps (savePost body ps).
Proof.
  intros Hf Hid.
  assert (Hb : _id body = id)
    by (rewrite Hid; eapply findById_id; eassumption).
  split; [| split].
  - now apply findById_saved with post.
  - intros x Hx. rewrite (findById_savePost id x ps post body Hf Hb).
    apply Nat.eqb_neq in Hx. rewrite Nat.eqb_sym in Hx. now rewrite Hx.
  - apply savePost_ids.
Qed.

(** X3: a vote that is answered with success found the post, found the
    option at the given index and found no earlier vote of the user; the
    post it answers with has that option with one more vote and the user as
    its last voter, every other option and field as before and [totalVotes]
    one higher; in the store that post replaces the old one and every other
    post is as it was. *)
Theorem vote_writes_one_vote :
  forall (db : Db) (now : Z) (id : ObjectId) (i : Z) (uid msg : string)
         (body : Post),
    (fst (Tracking.vote now id i uid db) = ok msg body ->
     exists post,
       findById id (posts db) = Some post /\
       votedOn post body i uid /\
       replaced id body (posts db)
                (posts (snd (Tracking.vote now id i uid db)))) /\
    (fst (Server.vote id i uid db) = ok msg body ->
     exists post,
       findById id (posts db) = Some post /\
       votedOn post body i uid /\
       replaced id body (posts db) (posts (snd (Server.vote id i uid db))) /\
       users (snd (Server.vote id i uid db)) = users db).
Proof.
  intros db now id i uid msg body. split.
  - unfold Tracking.vote.
    destruct (String.eqb uid EmptyString); [discriminate |].
    destruct (findById id (posts db)) as [post |] eqn:Hf; [| discriminate].
    destruct (hasVoted post uid) eqn:Hv; [discriminate |].
    destruct (at_index (options post) i) as [o |] eqn:Hi; [| discriminate].
    simpl. intros [= _ <-]. exists post.
    split; [reflexivity |].
    split; [now apply addVote_votedOn with o |].
    now apply savePost_replaced with post.
  - unfold Server.vote.
    destruct (findById id (posts db)) as [post |] eqn:Hf; [| discriminate].
    destruct (hasVoted post uid) eqn:Hv; [discriminate |].
    destruct (at_index (options post) i) as [o |] eqn:Hi; [| discriminate].
    simpl. intros [= _ <-]. exists post.
    split; [reflexivity |].
    split; [now apply addVote_votedOn with o |].
    split; [now apply savePost_replaced with post | reflexivity].
Qed.

Lemma vote_writes_one_vote_witness :
  fst (Server.vote 1 1 "u1" twoPosts) = ok EmptyString (addVote postA 1 "u1")
  /\
  exists post,
    findById 1 (posts twoPosts) = Some post /\
    votedOn post (addVote postA 1 "u1") 1 "u1" /\
    replaced 1 (addVote postA 1 "u1") (posts twoPosts)
             (posts (snd (Server.vote 1 1 "u1" twoPosts))) /\
    users (snd (Server.vote 1 1 "u1" twoPosts)) = users twoPosts.
Proof.
  split; [reflexivity |].
  apply (proj2 (vote_writes_one_vote twoPosts 0 1 1 "u1" EmptyString
                  (addVote postA 1 "u1"))).
  reflexivity.
Defined.

(** ** Like, then like again *)

Lemma savePost_savePost (id : ObjectId) (p p' : Post) (ps : list Post) :
  findById id ps = Some p -> _id p' = _id p ->
  savePost p (savePost p' ps) = ps.
Proof.
  intros Hf Hid. induction ps as [| q rest IH]; simpl in *; [discriminate |].
  destruct (Nat.eqb (_id q) id) eqn:He.
  - injection Hf as ->. rewrite Hid, Nat.eqb_refl. simpl.
    now rewrite Hid, Nat.eqb_refl.
  - assert (Hp : _id p = id) by (eapply findById_id; eassumption).
    rewrite Hid, Hp, He. simpl. rewrite Hp, He. f_equal. now apply IH.
Qed.

Lemma filterOut_push (u : string) (l : list string) :
  ~ In u l -> filterOut u (push l u) = l.
Proof.
  intros Hn. unfold push, filterOut. rewrite filter_app. simpl.
  rewrite String.eqb_refl. simpl. rewrite app_nil_r.
  now apply filterOut_fresh.
Qed.

Lemma spliceFirst_push (u : string) (l : list string) :
  ~ In u l -> spliceFirst u (push l u) = l.
Proof.
  unfold push. induction l as [| y rest IH]; simpl; intros Hn.
  - now rewrite String.eqb_refl.
  - destruct (String.eqb y u) eqn:He.
    + apply String.eqb_eq in He. exfalso. apply Hn. now left.
    + f_equal. apply IH. tauto.
Qed.

Lemma includes_push (u : string) (l : list string) :
  includes u (push l u) = true.
Proof.
  apply includes_In. unfold push. apply in_or_app. right. now left.
Qed.

Lemma setLikes_back (p : Post) (l : list string) (c : Z) :
  setLikes (setLikes p l c) (likes p) (likesCount p + 1 - 1) = p.
Proof.
  destruct p. unfold setLikes. simpl. f_equal. lia.
Qed.

(** X4: when a user who has not liked an existing post likes it and then
    likes it again, the second request is answered as an unlike with the
    post as it was before the first, and the posts of the store are exactly
    what they were; in the tracking service the users are those left by the
    first request, so a user with a record keeps the one like record. *)
Theorem like_then_unlike_restores_posts :
  forall (db : Db) (now now' : Z) (id : ObjectId) (uid : string)
         (post : Post),
    findById id (posts db) = Some post ->
    includes uid (likes post) = false ->
    uid <> EmptyString ->
    (let db1 := snd (Tracking.like now id uid db) in
     Tracking.like now' id uid db1
     = (ok "Unliked" post, mkDb (posts db) (users db1)) /\
     users db1
     = Tracking.withUser uid (Tracking.pushInteraction now id Like)
                         (users db)) /\
    (let db1 := snd (Server.like id uid db) in
     Server.like id uid db1 = (ok EmptyString post, db)).
Proof.
  intros db now now' id uid post Hf Hl Hne.
  assert (He : String.eqb uid EmptyString = false)
    by now apply String.eqb_neq.
  assert (Hid : _id post = id) by (eapply findById_id; eassumption).
  apply includes_false in Hl as Hnot.
  split.
  - cbv zeta. unfold Tracking.like at 2 3 4. rewrite He, Hf, Hl. simpl.
    split; [| now rewrite Hid].
    unfold Tracking.like. simpl. rewrite He.
    rewrite (findById_saved id (posts db) post) by easy.
    simpl. rewrite includes_push, filterOut_push by exact Hnot.
    rewrite (setLikes_back post).
    rewrite (savePost_savePost id post) by easy.
    reflexivity.
  - cbv zeta. unfold Server.like at 2. rewrite Hf, Hl. simpl.
    unfold Server.like. simpl.
    rewrite (findById_saved id (posts db) post) by easy.
    simpl. rewrite includes_push, spliceFirst_push by exact Hnot.
    rewrite (setLikes_back post).
    rewrite (savePost_savePost id post) by easy.
    destruct db; reflexivity.
Qed.

Lemma like_then_unlike_restores_posts_witness :
  findById 7 (posts sportsDb) = Some sportsPost /\
  Tracking.like 9 7 "u1" (snd (Tracking.like 8 7 "u1" sportsDb))
  = (ok "Unliked" sportsPost,
     mkDb [sportsPost]
          [mkUser "u1" "Ann" [mkInteraction 7 Like 8] ["sports"; "news"]]).
Proof.
  split; [reflexivity |].
  destruct (like_then_unlike_restores_posts sportsDb 8 9 7 "u1" sportsPost)
    as [[H _] _]; [reflexivity | reflexivity | discriminate |].
  exact H.
Defined.

(** ** Users over time *)

Lemma findOne_app (uid : string) (us more : list User) (u : User) :
  findOne uid us = Some u -> findOne uid (us ++ more) = Some u.
Proof.
  induction us as [| v rest IH]; simpl; [discriminate |].
  destruct (String.eqb (userId v) uid); [trivial | exact IH].
Qed.

Lemma usersStep_kept (us us' : list User) (x : string) (u : User) :
  usersStep us us' -> findOne x us = Some u ->
  exists u', findOne x us' = Some u' /\ userKept u u'.
Proof.
  intros Hstep Hx.
  destruct Hstep as [| uid u0 u0' Hf Hk Hint | uid name Hf Hu Hn].
  - exists u. split; [exact Hx | apply userKept_refl].
  - assert (Hid : userId u0' = uid).
    { destruct Hk as [-> _]. eapply findOne_userId; eassumption. }
    rewrite (findOne_saveUser uid x us u0 u0' Hf Hid).
    destruct (String.eqb uid x) eqn:He.
    + apply String.eqb_eq in He. subst x.
      assert (u = u0) by congruence. subst u0.
      exists u0'. split; [reflexivity | exact Hk].
    + exists u. split; [exact Hx | apply userKept_refl].
  - exists u. split; [now apply findOne_app | apply userKept_refl].
Qed.

Lemma trackingCalls_kept (calls : list Call) (db : Db) (x : string)
    (u : User) :
  findOne x (users db) = Some u ->
  exists u', findOne x (users (fold_left trackingCall calls db)) = Some u' /\
             userKept u u'.
Proof.
  revert db u. induction calls as [| c rest IH]; intros db u Hx; simpl.
  - exists u. split; [exact Hx | apply userKept_refl].
  - destruct (usersStep_kept _ _ x u (trackingCall_users db c) Hx)
      as [u1 [Hx1 Hk1]].
    destruct (IH (trackingCall db c) u1 Hx1) as [u' [Hx' Hk']].
    exists u'. split; [exact Hx' |]. eapply userKept_trans; eassumption.
Qed.

Lemma serverCall_user (db : Db) (c : Call) (x : string) (u : User) :
  findOne x (users db) = Some u ->
  findOne x (users (serverCall db c)) = Some u.
Proof.
  intros Hx.
  destruct c as [now r | uid name | now newId creator name ttl opts tgs
                 | id uid]; simpl.
  - now rewrite serverStep_users.
  - unfold Server.createUser.
    destruct (String.eqb uid EmptyString || String.eqb name EmptyString)%bool;
      [exact Hx |].
    destruct (findOne uid (users db)); [exact Hx |].
    simpl. unfold push. now apply findOne_app.
  - unfold Server.createPost.
    destruct opts as [os |]; [| exact Hx].
    destruct (insertPost _ (posts db)); exact Hx.
  - exact Hx.
Qed.

(** X5: a user record is never removed or rewritten backwards. Through
    any sequence of calls of the tracking service a user keeps identifier
    and name, and the interaction log and the interests only grow at the
    end; through any sequence of calls of src/server.js the record stays
    exactly what it was. *)
Theorem user_records_only_grow :
  forall (calls : list Call) (db : Db) (uid : string) (u : User),
    findOne uid (users db) = Some u ->
    (exists u',
        findOne uid (users (fold_left trackingCall calls db)) = Some u' /\
        userKept u u') /\
    findOne uid (users (fold_left serverCall calls db)) = Some u.
Proof.
  intros calls db uid u Hu. split.
  - now apply trackingCalls_kept.
  - revert db Hu. induction calls as [| c rest IH]; intros db Hu; simpl.
    + exact Hu.
    + apply IH. now apply serverCall_user.
Qed.

Lemma user_records_only_grow_witness :
  findOne "u1" (users sportsDb) = Some sportsFan /\
  exists u',
    findOne "u1"
      (users (fold_left trackingCall
                [CallRequest 3 (ReqView 7 "u1");
                 CallCreateUser "u1" "Other";
                 CallDelete 7 (Some "u2")]
                sportsDb)) = Some u' /\
    userKept sportsFan u'.
Proof.
  split; [reflexivity |].
  apply (user_records_only_grow
           [CallRequest 3 (ReqView 7 "u1"); CallCreateUser "u1" "Other";
            CallDelete 7 (Some "u2")] sportsDb "u1" sportsFan).
  reflexivity.
Defined.

(** ** Interests after a vote *)

Lemma mergeTags_more (tgs acc more : list string) :
  fold_left (fun acc tag => if includes tag acc then acc else push acc tag)
            tgs acc = (acc ++ more)%list ->
  forall t, In t more -> In t tgs /\ ~ In t acc.
Proof.
  revert acc more. induction tgs as [| tag rest IH]; intros acc more; simpl.
  - intros Hm t Ht.
    assert (more = []) as ->.
    { apply (app_inv_head acc). now rewrite app_nil_r. }
    destruct Ht.
  - destruct (includes tag acc) eqn:Hi.
    + intros Hm t Ht. destruct (IH acc more Hm t Ht). tauto.
    + intros Hm t Ht.
      destruct (mergeTags_spec rest (push acc tag)) as [[more' Hm'] _].
      unfold push in *. rewrite Hm', <- app_assoc in Hm.
      apply app_inv_head in Hm. subst more.
      destruct Ht as [<- | Ht].
      * split; [now left | now apply includes_false].
      * destruct (IH (acc ++ [tag])%list more' Hm' t Ht) as [H1 H2].
        split; [now right |].
        intros Hacc. apply H2. apply in_or_app. now left.
Qed.

(** X6: after a successful vote of a user with a record, the user's
    interests are the earlier interests followed by tags of the post that
    were not among them; every tag of the post is now an interest, and
    interests without duplicates stay without duplicates. *)
Theorem vote_merges_tags_into_interests :
  forall (db : Db) (now : Z) (id : ObjectId) (i : Z) (uid msg : string)
         (body : Post) (user : User),
    fst (Tracking.vote now id i uid db) = ok msg body ->
    findOne uid (users db) = Some user ->
    exists (user' : User) (more : list string),
      findOne uid (users (snd (Tracking.vote now id i uid db))) = Some user' /\
      interests user' = (interests user ++ more)%list /\
      (forall t, In t more -> In t (tags body) /\ ~ In t (interests user)) /\
      (forall t, In t (tags body) -> In t (interests user')) /\
      (NoDup (interests user) -> NoDup (interests user')).
Proof.
  intros db now id i uid msg body user Hok Hu.
  unfold Tracking.vote in *.
  destruct (String.eqb uid EmptyString); [discriminate |].
  destruct (findById id (posts db)) as [post |] eqn:Hf; [| discriminate].
  destruct (hasVoted post uid); [discriminate |].
  destruct (at_index (options post) i) as [o |]; [| discriminate].
  simpl in *. injection Hok as _ <-.
  unfold Tracking.withUser. rewrite Hu.
  destruct (mergeTags_spec (tags post) (interests user))
    as [[more Hm] [Hnd [Hin _]]].
  eexists. exists more.
  split.
  - rewrite (findOne_saveUser uid uid (users db) user) by
      (first [exact Hu | simpl; eapply findOne_userId; eassumption]).
    rewrite String.eqb_refl. reflexivity.
  - simpl. split; [exact Hm |].
    split; [now apply mergeTags_more | split; assumption].
Qed.

Lemma vote_merges_tags_into_interests_witness :
  exists (user' : User) (more : list string),
    findOne "u1" (users (snd (Tracking.vote 4 7 0 "u1" sportsDb)))
    = Some user' /\
    interests user' = (interests sportsFan ++ more)%list /\
    (forall t, In t more ->
               In t (tags (addVote sportsPost 0 "u1")) /\
               ~ In t (interests sportsFan)) /\
    (forall t, In t (tags (addVote sportsPost 0 "u1")) ->
               In t (interests user')) /\
    (NoDup (interests sportsFan) -> NoDup (interests user')).
Proof.
  apply (vote_merges_tags_into_interests sportsDb 4 7 0 "u1" "Vote recorded"
           (addVote sportsPost 0 "u1") sportsFan); reflexivity.
Defined.

(** ** Registration *)

Lemma findOne_push_other (x : string) (us : list User) (u : User) :
  userId u <> x -> findOne x (push us u) = findOne x us.
Proof.
  intros Hne. unfold push.
  induction us as [| v rest IH]; simpl.
  - apply String.eqb_neq in Hne. now rewrite Hne.
  - destruct (String.eqb (userId v) x); [reflexivity | exact IH].
Qed.

(** X7: registering with a non-empty identifier and name always answers
    with a record of that identifier, which the lookup route then returns;
    an identifier already registered gets its stored record back, name, log
    and interests untouched, and the store is unchanged, so registering
    again, under any name, changes nothing; lookups of other identifiers are
    not affected. *)
Theorem createUser_is_idempotent :
  forall (db : Db) (uid name : string),
    uid <> EmptyString -> name <> EmptyString ->
    exists user : User,
      Tracking.createUser uid name db
      = (ok "User ready" user, snd (Tracking.createUser uid name db)) /\
      Server.createUser uid name db
      = (ok EmptyString user, snd (Tracking.createUser uid name db)) /\
      userId user = uid /\
      Tracking.getUser uid (snd (Tracking.createUser uid name db))
      = ok EmptyString user /\
      (forall stored, findOne uid (users db) = Some stored ->
                      user = stored /\
                      snd (Tracking.createUser uid name db) = db) /\
      (findOne uid (users db) = None -> user = mkUser uid name [] []) /\
      (forall name', name' <> EmptyString ->
         Tracking.createUser uid name'
           (snd (Tracking.createUser uid name db))
         = (ok "User ready" user, snd (Tracking.createUser uid name db))) /\
      (forall x, x <> uid ->
         Tracking.getUser x (snd (Tracking.createUser uid name db))
         = Tracking.getUser x db).
Proof.
  intros db uid name Hu Hn.
  apply String.eqb_neq in Hu as Hu', Hn as Hn'.
  unfold Tracking.createUser, Server.createUser, Tracking.getUser.
  rewrite Hu', Hn'. simpl.
  destruct (findOne uid (users db)) as [stored |] eqn:Hf; simpl.
  - exists stored. rewrite Hf.
    repeat split; try reflexivity.
    + eapply findOne_userId; eassumption.
    + now injection H as ->.
    + discriminate.
    + intros name' Hn''. apply String.eqb_neq in Hn''.
      rewrite Hn''. simpl. try rewrite Hf. reflexivity.
  - exists (mkUser uid name [] []).
    rewrite (findOne_push uid (users db) (mkUser uid name [] []) Hf eq_refl).
    repeat split; try reflexivity.
    + discriminate.
    + discriminate.
    + intros name' Hn''. apply String.eqb_neq in Hn''.
      rewrite Hn''. simpl.
      try rewrite (findOne_push uid (users db) (mkUser uid name [] []) Hf
                     eq_refl).
      reflexivity.
    + intros x Hx. rewrite findOne_push_other by (simpl; congruence).
      reflexivity.
Qed.

Lemma createUser_is_idempotent_witness :
  exists user : User,
    Tracking.createUser "u1" "Zed" sportsDb
    = (ok "User ready" user, snd (Tracking.createUser "u1" "Zed" sportsDb)) /\
    Server.createUser "u1" "Zed" sportsDb
    = (ok EmptyString user, snd (Tracking.createUser "u1" "Zed" sportsDb)) /\
    userId user = "u1" /\
    Tracking.getUser "u1" (snd (Tracking.createUser "u1" "Zed" sportsDb))
    = ok EmptyString user /\
    (forall stored, findOne "u1" (users sportsDb) = Some stored ->
                    user = stored /\
                    snd (Tracking.createUser "u1" "Zed" sportsDb) = sportsDb)
    /\
    (findOne "u1" (users sportsDb) = None -> user = mkUser "u1" "Zed" [] [])
    /\
    (forall name', name' <> EmptyString ->
       Tracking.createUser "u1" name'
         (snd (Tracking.createUser "u1" "Zed" sportsDb))
       = (ok "User ready" user,
          snd (Tracking.createUser "u1" "Zed" sportsDb))) /\
    (forall x, x <> "u1" ->
       Tracking.getUser x (snd (Tracking.createUser "u1" "Zed" sportsDb))
       = Tracking.getUser x sportsDb).
Proof.
  apply (createUser_is_idempotent sportsDb "u1" "Zed"); discriminate.
Defined.

(** ** A post the user has interacted with *)






(** ** Pages of the feed *)

Lemma firstn_firstn_skipn {A : Type} (a b : nat) (l : list A) :
  (firstn a l ++ firstn b (skipn a l))%list = firstn (a + b) l.
Proof.
  revert l. induction a as [| a IH]; intros l; simpl; [reflexivity |].
  destruct l as [| x rest]; simpl.
  - now rewrite firstn_nil.
  - now rewrite IH.
Qed.

Lemma window_next {A : Type} (a b s : nat) (l : list A) :
  (window a s l ++ window b (s + a) l)%list = window (a + b) s l.
Proof.
  unfold window.
  replace (s + a)%nat with (a + s)%nat by lia.
  rewrite <- skipn_skipn. apply firstn_firstn_skipn.
Qed.

Lemma window_length {A : Type} (limit skip : nat) (l : list A) :
  (List.length (window limit skip l) <= limit)%nat.
Proof. unfold window. apply firstn_le_length. Qed.

Lemma window_map {A B : Type} (f : A -> B) (limit skip : nat) (l : list A) :
  map f (window limit skip l) = window limit skip (map f l).
Proof. unfold window. now rewrite skipn_map, firstn_map. Qed.

Lemma NoDup_firstn {A : Type} (n : nat) (l : list A) :
  NoDup l -> NoDup (firstn n l).
Proof.
  revert l. induction n as [| n IH]; intros l Hnd; simpl; [constructor |].
  destruct l as [| x rest]; [constructor |].
  inversion Hnd as [| ? ? Hx Hrest]; subst.
  constructor; [| now apply IH].
  intros Hin. apply Hx. eapply firstn_member; eassumption.
Qed.

Lemma NoDup_skipn {A : Type} (n : nat) (l : list A) :
  NoDup l -> NoDup (skipn n l).
Proof.
  revert l. induction n as [| n IH]; intros l Hnd; simpl; [exact Hnd |].
  destruct l as [| x rest]; [constructor |].
  apply IH. now inversion Hnd.
Qed.

Lemma NoDup_window {A : Type} (limit skip : nat) (l : list A) :
  NoDup l -> NoDup (window limit skip l).
Proof.
  intros H. unfold window. now apply NoDup_firstn, NoDup_skipn.
Qed.

Lemma NoDup_ids_filter (f : Post -> bool) (ps : list Post) :
  NoDup (map _id ps) -> NoDup (map _id (filter f ps)).
Proof.
  induction ps as [| p rest IH]; simpl; [trivial |].
  intros Hnd. inversion Hnd as [| ? ? Hp Hrest]; subst.
  destruct (f p); simpl; [| now apply IH].
  constructor; [| now apply IH].
  intros Hin. apply Hp. apply in_map_iff in Hin.
  destruct Hin as [x [Hx Hin]]. apply in_map_iff. exists x.
  split; [exact Hx |]. apply filter_In in Hin. tauto.
Qed.

Lemma aggregate_ids (score : Post -> option R) (interacted : list ObjectId)
    (limit skip : nat) (ps : list Post) :
  NoDup (map _id ps) ->
  NoDup (map (fun d => _id (doc d))
             (pageOf (aggregate score interacted limit skip ps))).
Proof.
  intros Hnd.
  destruct (aggregate score interacted limit skip ps) as [page |] eqn:Ha;
    [| constructor].
  apply aggregate_Some in Ha. destruct Ha as [_ [ds [Hds ->]]].
  destruct (addFields_spec _ _ _ Hds) as [Hdoc _].
  simpl. rewrite window_map. apply NoDup_window.
  eapply Permutation_NoDup.
  - apply Permutation_sym, Permutation_map. apply sortBy_perm.
  - rewrite <- (map_map doc _id), Hdoc. now apply NoDup_ids_filter.
Qed.

Lemma fallback_ids (limit skip : nat) (ps : list Post) :
  NoDup (map _id ps) ->
  NoDup (map (fun d => _id (doc d))
             (map plain (window limit skip (trendingOrder ps)))).
Proof.
  intros Hnd. rewrite map_map. simpl. rewrite window_map.
  apply NoDup_window.
  eapply Permutation_NoDup; [| exact Hnd].
  apply Permutation_sym, Permutation_map, trendingOrder_perm.
Qed.

Lemma fallback_In (limit skip : nat) (ps : list Post) (d : FeedDoc) :
  In d (map plain (cursorWindow limit skip (trendingOrder ps))) ->
  In (doc d) ps.
Proof.
  intros H. apply in_map_iff in H. destruct H as [p [<- Hp]]. simpl.
  apply (Permutation_in _ (trendingOrder_perm ps)).
  destruct limit as [| n]; simpl in Hp.
  - eapply skipn_member; eassumption.
  - now apply In_window in Hp.
Qed.

Lemma queryOr_skip (n : nat) : queryOr (Some n) 0 = n.
Proof. now destruct n. Qed.

Lemma queryOr_limit (n d : nat) : (0 < n)%nat -> queryOr (Some n) d = n.
Proof. destruct n; [lia | reflexivity]. Qed.

Lemma listPosts_page (n s : nat) (db : Db) :
  (0 < n)%nat ->
  Server.listPosts (mkQuery (Some n) (Some s)) db
  = window n s (newestFirst (posts db)).
Proof.
  intros Hn. unfold Server.listPosts. cbn [limit skip].
  now rewrite queryOr_skip, queryOr_limit.
Qed.

(** X8: consecutive pages of the feed are one longer page cut in two: for
    any user, known or not, the page of [limit] documents at [skip]
    followed by the page of [more] documents at [skip + limit] is the page
    of [limit + more] documents at [skip], as long as the store does not
    change between the requests, and the three requests are served or
    rejected together; the same holds for the pages of [GET /api/posts]. *)
Theorem feed_pages_compose :
  forall (db : Db) (now : Z) (uid : string) (limit more skip : nat),
    (0 < limit)%nat -> (0 < more)%nat ->
    joinPages (Tracking.getPersonalizedFeed now uid limit skip db)
              (Tracking.getPersonalizedFeed now uid more (skip + limit) db)
    = Tracking.getPersonalizedFeed now uid (limit + more) skip db /\
    joinPages (Server.getPersonalizedFeed uid limit skip db)
              (Server.getPersonalizedFeed uid more (skip + limit) db)
    = Server.getPersonalizedFeed uid (limit + more) skip db /\
    (exists pages,
        Server.getPersonalizedFeed uid (limit + more) skip db = Some pages) /\
    (Server.listPosts (mkQuery (Some limit) (Some skip)) db
     ++ Server.listPosts (mkQuery (Some more) (Some (skip + limit)%nat))
                         db)%list
    = Server.listPosts (mkQuery (Some (limit + more)%nat) (Some skip)) db.
Proof.
  intros db now uid limit more skip Hl Hm.
  assert (Hagg : forall score interacted,
             joinPages (aggregate score interacted limit skip (posts db))
                       (aggregate score interacted more (skip + limit)
                                  (posts db))
             = aggregate score interacted (limit + more) skip (posts db)).
  { intros score interacted. unfold aggregate.
    destruct limit as [| l]; [lia |]. destruct more as [| m]; [lia |].
    simpl Nat.add.
    destruct (addFields score (filter (notIn interacted) (posts db)))
      as [ds |]; [| reflexivity].
    simpl. f_equal.
    change (S (l + S m)) with (S l + S m)%nat. apply window_next. }
  assert (Hfb : joinPages
                  (Some (map plain (cursorWindow limit skip
                                      (trendingOrder (posts db)))))
                  (Some (map plain (cursorWindow more (skip + limit)
                                      (trendingOrder (posts db)))))
                = Some (map plain (cursorWindow (limit + more) skip
                                     (trendingOrder (posts db))))).
  { rewrite !cursorWindow_positive by lia. simpl.
    rewrite <- map_app. do 2 f_equal. apply window_next. }
  split; [| split; [| split]].
  - unfold Tracking.getPersonalizedFeed.
    destruct (findOne uid (users db)) as [user |]; [apply Hagg | exact Hfb].
  - unfold Server.getPersonalizedFeed.
    destruct (findOne uid (users db)) as [user |]; [apply Hagg | exact Hfb].
  - unfold Server.getPersonalizedFeed.
    destruct (findOne uid (users db)) as [user |].
    + rewrite aggregate_total by lia. now eexists.
    + now eexists.
  - rewrite !listPosts_page by lia. apply window_next.
Qed.

Lemma feed_pages_compose_witness :
  joinPages (Server.getPersonalizedFeed "ghost" 1 0 twoPosts)
            (Server.getPersonalizedFeed "ghost" 1 1 twoPosts)
  = Server.getPersonalizedFeed "ghost" 2 0 twoPosts.
Proof.
  apply (proj1 (proj2 (feed_pages_compose twoPosts 0 "ghost" 1 1 0
                         ltac:(lia) ltac:(lia)))).
Defined.

(** X9: for a positive limit, a page of the feed holds at most [limit]
    documents, every one of them a post of the store, and when the
    identifiers of the store are distinct no post comes twice in the page;
    src/server.js always serves such a page. *)
Theorem feed_page_shape :
  forall (db : Db) (now : Z) (uid : string) (limit skip : nat),
    (0 < limit)%nat ->
    let shape (page : list FeedDoc) :=
      (List.length page <= limit)%nat /\
      (forall d, In d page -> In (doc d) (posts db)) /\
      (NoDup (map _id (posts db)) ->
       NoDup (map (fun d => _id (doc d)) page)) in
    (forall page,
        Tracking.getPersonalizedFeed now uid limit skip db = Some page ->
        shape page) /\
    (exists page,
        Server.getPersonalizedFeed uid limit skip db = Some page /\
        shape page).
Proof.
  intros db now uid limit skip Hl shape.
  assert (Hagg : forall score interacted page,
             aggregate score interacted limit skip (posts db) = Some page ->
             shape page).
  { intros score interacted page Ha. split; [| split].
    - apply aggregate_Some in Ha. destruct Ha as [_ [ds [_ ->]]].
      apply window_length.
    - intros d Hd.
      apply (aggregate_In score interacted limit skip (posts db)).
      now rewrite Ha.
    - intros Hnd.
      pose proof (aggregate_ids score interacted limit skip (posts db) Hnd)
        as H.
      now rewrite Ha in H. }
  assert (Hfb : shape (map plain
                         (cursorWindow limit skip (trendingOrder (posts db))))).
  { split; [| split].
    - rewrite length_map, cursorWindow_positive by exact Hl.
      apply window_length.
    - intros d. apply fallback_In.
    - rewrite cursorWindow_positive by exact Hl. apply fallback_ids. }
  unfold Tracking.getPersonalizedFeed, Server.getPersonalizedFeed.
  destruct (findOne uid (users db)) as [user |]; split.
  - intros page. apply Hagg.
  - eexists. split; [now apply aggregate_total |].
    eapply Hagg. now apply aggregate_total.
  - intros page [= <-]. exact Hfb.
  - eexists. split; [reflexivity | exact Hfb].
Qed.

Lemma feed_page_shape_witness :
  exists page,
    Server.getPersonalizedFeed "u1" 1 0 viewedDb = Some page /\
    (List.length page <= 1)%nat /\
    NoDup (map (fun d => _id (doc d)) page).
Proof.
  destruct (feed_page_shape viewedDb 0 "u1" 1 0 ltac:(lia))
    as [_ [page [Hpage [Hlen [_ Hnd]]]]].
  exists page. split; [exact Hpage |]. split; [exact Hlen |].
  apply Hnd. simpl. repeat constructor; simpl; intuition discriminate.
Defined.

(** ** A user without interests *)

Lemma sortBy_map {A B : Type} (f : A -> B) (before : A -> A -> bool)
    (before' : B -> B -> bool) (l : list A) :
  (forall a b, before' (f a) (f b) = before a b) ->
  sortBy before' (map f l) = map f (sortBy before l).
Proof.
  intros Hf.
  assert (Hins : forall x s,
             insertSorted before' (f x) (map f s)
             = map f (insertSorted before x s)).
  { intros x s. induction s as [| y rest IH]; simpl; [reflexivity |].
    rewrite Hf. destruct (before y x); simpl; [now rewrite IH | reflexivity]. }
  induction l as [| x rest IH]; simpl; [reflexivity |].
  now rewrite IH, Hins.
Qed.

Lemma tagScore_no_interests (p : Post) : tagScore [] p = 0%R.
Proof.
  unfold tagScore, setIntersection.
  replace (filter (fun x => includes x []) (tags p)) with (@nil string).
  - simpl. lra.
  - induction (tags p) as [| t rest IH]; simpl; [reflexivity | exact IH].
Qed.

Lemma filter_empty_log (ps : list Post) : filter (notIn []) ps = ps.
Proof.
  induction ps as [| p rest IH]; [reflexivity |].
  cbn [filter]. unfold notIn at 1. cbn [existsb negb]. now rewrite IH.
Qed.

(** X17: in src/server.js a user with a record and no interests is served
    the posts not in the user's log in the order of the trending ranking;
    with an empty log too, as right after registration, the page shows the
    same posts in the same order as the page of an unknown identifier. *)
Theorem feed_without_interests_is_trending :
  forall (db : Db) (uid : string) (user : User) (limit skip : nat),
    findOne uid (users db) = Some user ->
    interests user = [] ->
    (0 < limit)%nat ->
    option_map (map doc) (Server.getPersonalizedFeed uid limit skip db)
    = Some (window limit skip
              (trendingOrder
                 (filter (notIn (map postId (interactions user)))
                         (posts db)))) /\
    (interactions user = [] ->
     forall ghost, findOne ghost (users db) = None ->
       option_map (map doc) (Server.getPersonalizedFeed uid limit skip db)
       = option_map (map doc)
                    (Server.getPersonalizedFeed ghost limit skip db)).
Proof.
  intros db uid user limit skip Hu Hi Hl.
  assert (Hpage :
            option_map (map doc)
                       (Server.getPersonalizedFeed uid limit skip db)
            = Some (window limit skip
                      (trendingOrder
                         (filter (notIn (map postId (interactions user)))
                                 (posts db))))).
  { unfold Server.getPersonalizedFeed. rewrite Hu, Hi.
    rewrite aggregate_total by exact Hl. simpl. f_equal.
    rewrite window_map. f_equal.
    rewrite (map_ext (scored (fun p => (tagScore [] p + trendingScore p)%R))
                     (scored trendingScore))
      by (intros p; unfold scored; rewrite tagScore_no_interests;
          do 2 f_equal; lra).
    rewrite (sortBy_map (scored trendingScore) byTrending byRelevance)
      by reflexivity.
    rewrite map_map. simpl. apply map_id. }
  split; [exact Hpage |].
  intros Hlog ghost Hg. rewrite Hpage, Hlog.
  unfold Server.getPersonalizedFeed. rewrite Hg. simpl.
  rewrite cursorWindow_positive by exact Hl.
  rewrite map_map. simpl. rewrite map_id.
  now rewrite filter_empty_log.
Qed.

Lemma feed_without_interests_is_trending_witness :
  findOne "u1" (users viewedDb) = Some viewer /\
  option_map (map doc) (Server.getPersonalizedFeed "u1" 5 0 viewedDb)
  = Some [postA].
Proof.
  split; [reflexivity |].
  destruct (feed_without_interests_is_trending viewedDb "u1" viewer 5 0)
    as [H _]; [reflexivity | reflexivity | lia |].
  rewrite H. reflexivity.
Defined.

(** ** The trending job, run again *)


Lemma rescored_score (now : Z) (p : Post) :
  calculateEngagementScore now (rescored now p)
  = calculateEngagementScore now p.
Proof. reflexivity. Qed.






(** ** Bounds of the score *)

(** X16: for a post with non-negative counters that was created at or
    before [now], the engagement score lies between 0 and the undecayed
    weighted sum, and it is that sum exactly at the instant of creation. *)
Theorem score_between_zero_and_raw :
  forall (p : Post) (now : Z),
    0 <= totalVotes p -> 0 <= likesCount p ->
    0 <= shares p -> 0 <= views p ->
    createdAt p <= now ->
    (0 <= calculateEngagementScore now p <= rawScore p)%R /\
    calculateEngagementScore (createdAt p) p = rawScore p.
Proof.
  intros p now Hv Hl Hs Hw Hnow.
  pose proof (rawScore_nonneg p Hv Hl Hs Hw) as Hraw.
  pose proof (decayFactor_pos now p) as Hpos.
  assert (Hone : decayFactor (createdAt p) p = 1%R).
  { unfold decayFactor, ageInHours.
    replace (- ((IZR (createdAt p) - IZR (createdAt p)) / (1000 * 60 * 60))
             / 48)%R with 0%R by lra.
    apply exp_0. }
  pose proof (decayFactor_antitone (createdAt p) now p Hnow) as Hle.
  rewrite Hone in Hle.
  unfold calculateEngagementScore. split.
  - split; nra.
  - rewrite Hone. lra.
Qed.

Lemma score_between_zero_and_raw_witness :
  (0 <= calculateEngagementScore 3600000 (counters_post 0 10 4 3 50)
   <= rawScore (counters_post 0 10 4 3 50))%R.
Proof.
  apply (score_between_zero_and_raw (counters_post 0 10 4 3 50) 3600000);
    simpl; lia.
Defined.

(** ** Creating and deleting a post *)

Lemma findById_push (id : ObjectId) (ps : list Post) (p : Post) :
  findById id (push ps p)
  = match findById id ps with
    | Some q => Some q
    | None => if Nat.eqb (_id p) id then Some p else None
    end.
Proof.
  unfold push. induction ps as [| q rest IH]; simpl; [reflexivity |].
  destruct (Nat.eqb (_id q) id); [reflexivity | exact IH].
Qed.

Lemma findByIdAndDelete_push (ps : list Post) (p : Post) :
  findById (_id p) ps = None ->
  findByIdAndDelete (_id p) (push ps p) = ps.
Proof.
  unfold push. induction ps as [| q rest IH]; simpl.
  - now rewrite Nat.eqb_refl.
  - destruct (Nat.eqb (_id q) (_id p)); [discriminate |].
    intros H. now rewrite IH.
Qed.

Lemma findByIdAndDelete_length (id : ObjectId) (ps : list Post) (p : Post) :
  findById id ps = Some p ->
  S (List.length (findByIdAndDelete id ps)) = List.length ps.
Proof.
  induction ps as [| q rest IH]; simpl; [discriminate |].
  destruct (Nat.eqb (_id q) id); [reflexivity |].
  intros H. simpl. now rewrite IH.
Qed.

Lemma validates_newPost (id : ObjectId) (creator name ttl : string)
    (os tgs : list string) (now : Z) :
  validates (newPost id creator name ttl os tgs now) = true <->
  creator <> EmptyString /\ name <> EmptyString /\ ttl <> EmptyString /\
  Forall (fun o => o <> EmptyString) os.
Proof.
  unfold validates, newPost. simpl.
  rewrite !andb_true_iff, !negb_true_iff, !String.eqb_neq.
  rewrite forallb_forall, Forall_forall.
  split; intros [[[H1 H2] H3] H4] || intros [H1 [H2 [H3 H4]]];
    repeat split; try assumption.
  - intros o Ho. apply String.eqb_neq. rewrite <- negb_true_iff.
    apply (H4 (mkOption o 0 [])). apply in_map_iff. now exists o.
  - intros x Hx. apply in_map_iff in Hx. destruct Hx as [o [<- Ho]].
    simpl. rewrite negb_true_iff. apply String.eqb_neq. now apply H4.
Qed.

Lemma insertPost_newPost (db : Db) (now : Z) (newId : ObjectId)
    (creator name ttl : string) (os tgs : list string) :
  let post := newPost newId creator name ttl os tgs now in
  let fine := creatable db newId creator name ttl os in
  (insertPost post (posts db) = Some (push (posts db) post) /\ fine) \/
  (insertPost post (posts db) = None /\ ~ fine).
Proof.
  intros post fine. unfold fine, creatable, insertPost.
  destruct (validates post) eqn:Hv.
  - apply validates_newPost in Hv. destruct Hv as [H1 [H2 [H3 H4]]].
    change (_id post) with newId.
    destruct (findById newId (posts db)) eqn:Hf.
    + right. split; [reflexivity |].
      intros [_ [_ [_ [_ Hnone]]]]. discriminate.
    + left. split; [reflexivity |]. now repeat split.
  - right. split; [reflexivity |].
    intros [H1 [H2 [H3 [H4 _]]]].
    assert (validates post = true) by now apply validates_newPost.
    congruence.
Qed.

Lemma newPost_blank (id : ObjectId) (creator name ttl : string)
    (os tgs : list string) (now now' : Z) :
  let post := newPost id creator name ttl os tgs now in
  totalVotes post = 0 /\ likesCount post = 0 /\ likes post = [] /\
  shares post = 0 /\ views post = 0 /\ allVoters post = [] /\
  map text (options post) = os /\
  calculateEngagementScore now' post = 0%R.
Proof.
  intros post. unfold post, newPost, allVoters. simpl.
  repeat split.
  - induction os as [| o rest IH]; simpl; [reflexivity | exact IH].
  - rewrite map_map. simpl. apply map_id.
  - unfold calculateEngagementScore, rawScore. simpl. lra.
Qed.

(** X12: both services accept a creation exactly when the options are
    given, creator, creator name, title and every option text are non-empty
    and the identifier is not in use. The post then answered is appended to
    the posts, is found under its identifier, has every counter at zero and
    no voter or like, so that its score is 0 at any time; the other posts
    and the users are as before, and a deletion by the creator gives back
    the store as it was. *)
Theorem createPost_adds_a_fresh_post :
  forall (db : Db) (now : Z) (newId : ObjectId) (creator name ttl : string)
         (opts tgs : option (list string)),
    let accepted :=
      exists os, opts = Some os /\ creatable db newId creator name ttl os in
    ((exists msg body,
         fst (Tracking.createPost now newId creator name ttl opts tgs db)
         = ok msg body) <-> accepted) /\
    ((exists msg body,
         fst (Server.createPost now newId creator name ttl opts tgs db)
         = ok msg body) <-> accepted) /\
    (forall os,
        opts = Some os -> creatable db newId creator name ttl os ->
        let post := newPost newId creator name ttl os (orEmpty tgs) now in
        let db' := mkDb (push (posts db) post) (users db) in
        Tracking.createPost now newId creator name ttl opts tgs db
        = (ok "Post created" post, db') /\
        Server.createPost now newId creator name ttl opts tgs db
        = (ok EmptyString post, db') /\
        findById newId (posts db') = Some post /\
        (forall x, x <> newId ->
                   findById x (posts db') = findById x (posts db)) /\
        totalVotes post = 0 /\ likesCount post = 0 /\ likes post = [] /\
        shares post = 0 /\ views post = 0 /\ allVoters post = [] /\
        map text (options post) = os /\
        (forall now', calculateEngagementScore now' post = 0%R) /\
        Tracking.deletePost newId (Some creator) db'
        = (ok "Post deleted" tt, db)).
Proof.
  intros db now newId creator name ttl opts tgs accepted.
  assert (Hblank :
            forall os,
              (String.eqb creator EmptyString || String.eqb name EmptyString
               || String.eqb ttl EmptyString)%bool = true ->
              ~ creatable db newId creator name ttl os).
  { intros os Hb [H1 [H2 [H3 _]]].
    apply String.eqb_neq in H1, H2, H3. rewrite H1, H2, H3 in Hb.
    discriminate. }
  split; [| split].
  - unfold Tracking.createPost, accepted. destruct opts as [os |].
    + destruct (String.eqb creator EmptyString || String.eqb name EmptyString
                || String.eqb ttl EmptyString)%bool eqn:Hb.
      * split; [intros [msg [body H]]; discriminate |].
        intros [os' [[= <-] Hc]]. now apply Hblank in Hc.
      * destruct (insertPost_newPost db now newId creator name ttl os
                    (orEmpty tgs)) as [[-> Hc] | [-> Hn]]; simpl.
        -- split; [intros _; now exists os | intros _; now eexists; eexists].
        -- split; [intros [msg [body H]]; discriminate |].
           intros [os' [[= <-] Hc]]. contradiction.
    + split; [intros [msg [body H]]; discriminate |].
      intros [os [H _]]. discriminate.
  - unfold Server.createPost, accepted. destruct opts as [os |].
    + destruct (insertPost_newPost db now newId creator name ttl os
                  (orEmpty tgs)) as [[-> Hc] | [-> Hn]]; simpl.
      * split; [intros _; now exists os | intros _; now eexists; eexists].
      * split; [intros [msg [body H]]; discriminate |].
        intros [os' [[= <-] Hc]]. contradiction.
    + split; [intros [msg [body H]]; discriminate |].
      intros [os [H _]]. discriminate.
  - intros os -> Hc post db'.
    destruct (insertPost_newPost db now newId creator name ttl os
                (orEmpty tgs)) as [[Hi _] | [_ Hn]]; [| contradiction].
    fold post in Hi.
    destruct Hc as [H1 [H2 [H3 [H4 Hfresh]]]].
    apply String.eqb_neq in H1 as E1, H2 as E2, H3 as E3.
    destruct (newPost_blank newId creator name ttl os (orEmpty tgs) now now)
      as [B1 [B2 [B3 [B4 [B5 [B6 [B7 _]]]]]]].
    fold post in B1, B2, B3, B4, B5, B6, B7.
    split; [| split; [| split; [| split]]].
    + unfold Tracking.createPost. rewrite E1, E2, E3. simpl.
      fold post. now rewrite Hi.
    + unfold Server.createPost. fold post. now rewrite Hi.
    + simpl. rewrite findById_push, Hfresh. simpl. now rewrite Nat.eqb_refl.
    + intros x Hx. simpl. rewrite findById_push.
      destruct (findById x (posts db)); [reflexivity |].
      simpl. apply Nat.eqb_neq in Hx. rewrite Nat.eqb_sym in Hx.
      now rewrite Hx.
    + repeat split; try assumption.
      * intros now'.
        apply (newPost_blank newId creator name ttl os (orEmpty tgs) now now').
      * unfold Tracking.deletePost. simpl posts.
        rewrite findById_push, Hfresh. simpl. rewrite Nat.eqb_refl.
        simpl. rewrite String.eqb_refl.
        pose proof (findByIdAndDelete_push (posts db) post Hfresh) as Hd.
        change (_id post) with newId in Hd. rewrite Hd.
        destruct db; reflexivity.
Qed.

Lemma createPost_adds_a_fresh_post_witness :
  creatable sportsDb 9 "u2" "Bob" "Q" ["yes"; "no"] /\
  Tracking.createPost 3 9 "u2" "Bob" "Q" (Some ["yes"; "no"]) None sportsDb
  = (ok "Post created" (newPost 9 "u2" "Bob" "Q" ["yes"; "no"] [] 3),
     mkDb [sportsPost; newPost 9 "u2" "Bob" "Q" ["yes"; "no"] [] 3]
          [sportsFan]) /\
  Tracking.deletePost 9 (Some "u2")
    (mkDb [sportsPost; newPost 9 "u2" "Bob" "Q" ["yes"; "no"] [] 3]
          [sportsFan])
  = (ok "Post deleted" tt, sportsDb).
Proof.
  assert (Hc : creatable sportsDb 9 "u2" "Bob" "Q" ["yes"; "no"]).
  { repeat split; try discriminate. repeat constructor; discriminate. }
  split; [exact Hc |].
  destruct (createPost_adds_a_fresh_post sportsDb 3 9 "u2" "Bob" "Q"
              (Some ["yes"; "no"]) None) as [_ [_ H]].
  destruct (H ["yes"; "no"] eq_refl Hc)
    as [H1 [_ [_ [_ [_ [_ [_ [_ [_ [_ [_ [_ H2]]]]]]]]]]]].
  split; [exact H1 | exact H2].
Defined.

(** X11: a deletion is carried out exactly when the post exists and the
    [userId] of the query is the post's [creatorId]; a query without
    [userId] is never authorized. With distinct identifiers in the store,
    a post that was deleted is no longer found, every other post is found
    as before, the users are untouched, the store holds one post less, and
    no feed page contains the post from then on. *)
Theorem deletePost_only_by_creator :
  forall (db : Db) (id : ObjectId) (owner : option string),
    let deleted :=
      exists post,
        findById id (posts db) = Some post /\
        owner = Some (creatorId post) in
    (fst (Tracking.deletePost id owner db) = ok "Post deleted" tt
     <-> deleted) /\
    (~ deleted -> snd (Tracking.deletePost id owner db) = db) /\
    (deleted -> NoDup (map _id (posts db)) ->
     let db' := snd (Tracking.deletePost id owner db) in
     findById id (posts db') = None /\
     (forall x, x <> id -> findById x (posts db') = findById x (posts db)) /\
     users db' = users db /\
     S (List.length (posts db')) = List.length (posts db) /\
     (forall (now : Z) (uid : string) (limit skip : nat) (d : FeedDoc),
         In d (pageOf
                 (Tracking.getPersonalizedFeed now uid limit skip db')) ->
         _id (doc d) <> id)).
Proof.
  intros db id owner deleted.
  unfold deleted, Tracking.deletePost.
  destruct (findById id (posts db)) as [post |] eqn:Hf.
  - destruct owner as [u |].
    + destruct (String.eqb (creatorId post) u) eqn:He.
      * apply String.eqb_eq in He. subst u. simpl.
        split; [split; [intros _; now exists post | reflexivity] |].
        split; [intros Hn; exfalso; apply Hn; now exists post |].
        intros _ Hnd.
        assert (Hgone : findById id (findByIdAndDelete id (posts db)) = None)
          by now apply findByIdAndDelete_gone.
        split; [exact Hgone |].
        split; [intros x Hx; now apply findByIdAndDelete_other |].
        split; [reflexivity |].
        split; [now apply findByIdAndDelete_length with post |].
        intros now uid limit skip d Hd Heq.
        apply findById_None in Hgone. apply Hgone.
        assert (Hdoc : In (doc d) (findByIdAndDelete id (posts db))).
        { unfold Tracking.getPersonalizedFeed in Hd. simpl in Hd.
          destruct (findOne uid (users db)).
          - apply aggregate_In in Hd. tauto.
          - simpl in Hd. now apply fallback_In in Hd. }
        apply (in_map _id) in Hdoc. now rewrite Heq in Hdoc.
      * apply String.eqb_neq in He. simpl.
        split; [split; [discriminate |] |].
        -- intros [post' [[= <-] [= ->]]]. contradiction.
        -- split; [reflexivity |].
           intros [post' [[= <-] [= ->]]]. contradiction.
    + simpl. split; [split; [discriminate |] |].
      * intros [post' [_ H]]. discriminate.
      * split; [reflexivity |]. intros [post' [_ H]]. discriminate.
  - simpl. split; [split; [discriminate |] |].
    + intros [post' [H _]]. discriminate.
    + split; [reflexivity |]. intros [post' [H _]]. discriminate.
Qed.

Lemma deletePost_only_by_creator_witness :
  fst (Tracking.deletePost 1 (Some "u2") twoPosts) = ok "Post deleted" tt /\
  findById 1 (posts (snd (Tracking.deletePost 1 (Some "u2") twoPosts)))
  = None /\
  fst (Tracking.deletePost 1 (Some "u1") twoPosts)
  = error 403 "Not authorized".
Proof.
  destruct (deletePost_only_by_creator twoPosts 1 (Some "u2"))
    as [Hiff [_ Hdel]].
  assert (Hd : exists post,
             findById 1 (posts twoPosts) = Some post /\
             Some "u2" = Some (creatorId post))
    by (exists postA; split; reflexivity).
  split; [now apply Hiff |].
  split; [| reflexivity].
  apply Hdel; [exact Hd |].
  simpl. repeat constructor; simpl; intuition discriminate.
Defined.

(** ** Listings *)

Lemma newestFirst_perm (ps : list Post) : Permutation (newestFirst ps) ps.
Proof. apply sortBy_perm. Qed.

Lemma newestFirst_sorted (ps : list Post) :
  StronglySorted newerFirst (newestFirst ps).
Proof.
  apply StronglySorted_iff with (R := fun p q => byCreated q p = false).
  - intros p q H. unfold byCreated in H. apply Z.ltb_ge in H. exact H.
  - apply sortBy_sorted.
    + intros p q. unfold byCreated. rewrite Z.ltb_lt, Z.ltb_ge. lia.
    + intros p q r. unfold byCreated. rewrite !Z.ltb_ge. lia.
Qed.

(** X13: the posts of a user are exactly the stored posts whose
    [creatorId] is that user, newest first; a page of all posts is cut from
    the posts newest first, holds at most [limit] of them (20 when the
    limit is absent or zero), reports the number of stored posts as
    [total], and is the page src/server.js returns for a query that it
    reads as the same limit and skip. *)
Theorem listings_are_newest_first :
  forall (db : Db) (uid : string) (q : Query),
    (exists ps,
        Tracking.userPosts uid db = ok EmptyString ps /\
        (forall p, In p ps <-> In p (posts db) /\ creatorId p = uid) /\
        StronglySorted newerFirst ps /\
        (NoDup (map _id (posts db)) -> NoDup (map _id ps))) /\
    (exists page,
        Tracking.listPosts q db = ok EmptyString page /\
        Tracking.page_total page = List.length (posts db) /\
        Tracking.page_limit page = queryOr (limit q) 20 /\
        Tracking.page_skip page = queryOr (skip q) 0 /\
        (0 < Tracking.page_limit page)%nat /\
        (limit q = None -> Tracking.page_limit page = 20%nat) /\
        (List.length (Tracking.page_posts page) <= Tracking.page_limit page)%nat /\
        StronglySorted newerFirst (Tracking.page_posts page) /\
        (forall p, In p (Tracking.page_posts page) -> In p (posts db)) /\
        Tracking.page_posts page = Server.listPosts q db).
Proof.
  intros db uid q. split.
  - eexists. split; [reflexivity |]. split; [| split].
    + intros p. split.
      * intros Hp. apply (Permutation_in _ (newestFirst_perm _)) in Hp.
        apply filter_In in Hp. destruct Hp as [Hin He].
        apply String.eqb_eq in He. now split.
      * intros [Hin He].
        apply (Permutation_in _ (Permutation_sym (newestFirst_perm _))).
        apply filter_In. split; [exact Hin | now apply String.eqb_eq].
    + apply newestFirst_sorted.
    + intros Hnd. eapply Permutation_NoDup.
      * apply Permutation_sym, Permutation_map, newestFirst_perm.
      * now apply NoDup_ids_filter.
  - eexists. split; [reflexivity |]. simpl.
    repeat split.
    + destruct (limit q) as [[| n] |]; simpl; lia.
    + intros ->. reflexivity.
    + apply window_length.
    + apply StronglySorted_window, newestFirst_sorted.
    + intros p Hp. apply In_window in Hp.
      apply (Permutation_in _ (newestFirst_perm _)). exact Hp.
Qed.

Lemma listings_are_newest_first_witness :
  exists ps,
    Tracking.userPosts "u2" twoPosts = ok EmptyString ps /\
    (forall p, In p ps <-> In p (posts twoPosts) /\ creatorId p = "u2") /\
    StronglySorted newerFirst ps /\
    (NoDup (map _id (posts twoPosts)) -> NoDup (map _id ps)).
Proof.
  apply (proj1 (listings_are_newest_first twoPosts "u2" (mkQuery None None))).
Defined.

(** ** What requests leave alone *)

Lemma frameKept_refl (p : Post) : frameKept p p.
Proof. unfold frameKept. repeat split; lia. Qed.

Lemma frameKept_trans (p q r : Post) :
  frameKept p q -> frameKept q r -> frameKept p r.
Proof.
  unfold frameKept. intros H1 H2.
  decompose [and] H1. decompose [and] H2.
  repeat split; try congruence; lia.
Qed.

Lemma map_text_addVoter (uid : string) (n : nat) (opts : list PollOption) :
  map text (updateNth n (addVoter uid) opts) = map text opts.
Proof.
  revert n. induction opts as [| o rest IH]; intros [| n]; simpl;
    try reflexivity.
  now rewrite IH.
Qed.

Lemma mutation_frameKept (p p' : Post) : mutation p p' -> frameKept p p'.
Proof.
  intros []; unfold frameKept; simpl; repeat split;
    try apply map_text_addVoter; lia.
Qed.

Section RunsKeep.
Context {Req : Type}.
Variable step : Db -> Req -> Db.
Hypothesis step_store : forall db r, storeStep (posts db) (posts (step db r)).

Lemma storeStep_frameKept (ps ps' : list Post) (x : ObjectId) (q : Post) :
  storeStep ps ps' -> findById x ps = Some q ->
  exists q', findById x ps' = Some q' /\ frameKept q q'.
Proof.
  intros [-> | [id [p [p' [Hf [Hm ->]]]]]] Hq.
  - exists q. split; [exact Hq | apply frameKept_refl].
  - assert (Hid : _id p' = id).
    { rewrite (mutation_id _ _ Hm). eapply findById_id; eassumption. }
    rewrite (findById_savePost id x ps p p' Hf Hid).
    destruct (Nat.eqb id x) eqn:He.
    + apply Nat.eqb_eq in He. subst x.
      assert (q = p) by congruence. subst q.
      exists p'. split; [reflexivity | now apply mutation_frameKept].
    + exists q. split; [exact Hq | apply frameKept_refl].
Qed.

Lemma run_frameKept (reqs : list Req) (db : Db) (x : ObjectId) (q : Post) :
  findById x (posts db) = Some q ->
  exists q', findById x (posts (fold_left step reqs db)) = Some q' /\
             frameKept q q'.
Proof.
  revert db q. induction reqs as [| r rest IH]; intros db q Hq; simpl.
  - exists q. split; [exact Hq | apply frameKept_refl].
  - destruct (storeStep_frameKept _ _ x q (step_store db r) Hq)
      as [q1 [Hq1 Hk1]].
    destruct (IH (step db r) q1 Hq1) as [q' [Hq' Hk']].
    exists q'. split; [exact Hq' |].
    eapply frameKept_trans; eassumption.
Qed.
End RunsKeep.

(** X14: through any sequence of vote, like, share and view requests, in
    either service, a post stays in the store with the same identifier,
    creator, title, tags, creation time, option texts and scores, and its
    [totalVotes], [shares] and [views] never go down. *)
Theorem requests_only_count_up :
  forall (db : Db) (id : ObjectId) (p : Post),
    findById id (posts db) = Some p ->
    (forall reqs : list (Z * Request),
        exists p', findById id (posts (runTracking reqs db)) = Some p' /\
                   frameKept p p') /\
    (forall reqs : list Request,
        exists p', findById id (posts (runServer reqs db)) = Some p' /\
                   frameKept p p').
Proof.
  intros db id p Hp. split; intros reqs.
  - apply (run_frameKept trackingStep trackingStep_store reqs db id p Hp).
  - apply (run_frameKept serverStep serverStep_store reqs db id p Hp).
Qed.

Lemma requests_only_count_up_witness :
  exists p',
    findById 7 (posts (runTracking [(1, ReqView 7 "u1"); (2, ReqShare 7 "u1");
                                    (3, ReqVote 7 0 "u1")] sportsDb))
    = Some p' /\
    frameKept sportsPost p'.
Proof.
  apply (proj1 (requests_only_count_up sportsDb 7 sportsPost eq_refl)).
Defined.

(** ** Voters of a well-formed post *)

Lemma NoDup_app_apart {A : Type} (l1 l2 : list A) (a : A) :
  NoDup (l1 ++ l2) -> In a l1 -> In a l2 -> False.
Proof.
  induction l1 as [| x rest IH]; simpl; [tauto |].
  intros Hnd [-> | H1] H2; inversion Hnd as [| ? ? Hx Hrest]; subst.
  - apply Hx. apply in_or_app. now right.
  - now apply IH.
Qed.

Lemma sumVotes_voters (opts : list PollOption) :
  Forall (fun o => votes o = Z.of_nat (List.length (voters o))) opts ->
  sumVotes opts = Z.of_nat (List.length (List.concat (map voters opts))).
Proof.
  induction 1 as [| o rest Ho Hrest IH]; simpl; [reflexivity |].
  rewrite length_app, Nat2Z.inj_add, Ho, IH. reflexivity.
Qed.

Lemma voter_in_one_option (opts : list PollOption) (i j : nat)
    (oi oj : PollOption) (uid : string) :
  NoDup (List.concat (map voters opts)) ->
  nth_error opts i = Some oi -> nth_error opts j = Some oj ->
  In uid (voters oi) -> In uid (voters oj) -> i = j.
Proof.
  revert i j. induction opts as [| x rest IH]; intros [| i] [| j]; simpl;
    try discriminate; intros Hnd Hi Hj Hui Huj.
  - reflexivity.
  - injection Hi as <-. exfalso.
    apply (NoDup_app_apart _ _ uid Hnd Hui).
    apply in_concat. exists (voters oj). split; [| exact Huj].
    apply in_map. eapply nth_error_In; eassumption.
  - injection Hj as <-. exfalso.
    apply (NoDup_app_apart _ _ uid Hnd Huj).
    apply in_concat. exists (voters oi). split; [| exact Hui].
    apply in_map. eapply nth_error_In; eassumption.
  - f_equal. apply IH; try assumption.
    eapply NoDup_app_remove_l; eassumption.
Qed.

(** X18: in a post that satisfies the invariants of a reachable store,
    [totalVotes] is the number of voters of the post, a user identifier is
    among the voters of at most one option, and at most once there. *)
Theorem wellformed_post_counts_voters :
  forall p : Post,
    postOk p ->
    totalVotes p = Z.of_nat (List.length (allVoters p)) /\
    (forall (i j : nat) (oi oj : PollOption) (uid : string),
        nth_error (options p) i = Some oi ->
        nth_error (options p) j = Some oj ->
        In uid (voters oi) -> In uid (voters oj) -> i = j) /\
    (forall (o : PollOption), In o (options p) -> NoDup (voters o)).
Proof.
  intros p [[Htotal _] [[Hcount Hnd] _]].
  split; [| split].
  - rewrite Htotal. now apply sumVotes_voters.
  - intros i j oi oj uid. now apply voter_in_one_option.
  - intros o Ho. unfold allVoters in Hnd. clear Htotal Hcount.
    induction (options p) as [| x rest IH]; [destruct Ho |].
    simpl in Hnd. destruct Ho as [-> | Ho].
    + eapply NoDup_app_remove_r; eassumption.
    + apply IH; [| exact Ho]. eapply NoDup_app_remove_l; eassumption.
Qed.

Lemma wellformed_post_counts_voters_witness :
  postOk postA /\ totalVotes postA = Z.of_nat (List.length (allVoters postA)).
Proof.
  assert (H : postOk postA).
  { split; [| split].
    - repeat split. constructor.
    - split; [repeat constructor |].
      unfold allVoters; simpl. repeat constructor. intros [].
    - reflexivity. }
  split; [exact H |].
  apply (wellformed_post_counts_voters postA H).
Defined.

(** ** The trending page after a run of the job *)


